(** * REST API for users and courses: a shallow embedding of the Express
      application and its router.

    The development follows the JavaScript sources:
    - the [User] and [Course] Sequelize models (attribute lists, the
      [unique] constraint on [emailAddress], the mandatory [userId]
      foreign key);
    - the router: [asyncHandler], [authenticateUser], the validation chains
      built with [check], and the seven route handlers;
    - the application: the [express.json()] body parser, the greeting
      route, the [/api] mount point, the 404 middleware and the global
      error handler.

    Code of third-party packages (express-validator, bcryptjs, Sequelize,
    basic-auth) is not part of the repository.  What the handlers need from
    it is collected in the record [Library]; the structural part of each
    package (how a chain runs its validators, what [create] checks before
    inserting a row) is written out below.

    Scope of the model:
    - a request is one of the four methods the routes are registered for;
      [server] takes it as it arrives and runs [express.json()] first,
      [app] is the rest of the application, for a request whose body that
      middleware has parsed; the fields the chains check are present in the
      body or nowhere;
    - a path is the list of its segments; literal segments are matched
      without regard to the case of ASCII letters, as Express does when
      case sensitive routing is not enabled;
    - the connection to the database works: a query fails only through
      the model's validation or a constraint of the schema;
    - numbers are integers. *)

From Stdlib Require Import List String Ascii ZArith Bool Lia.
From Stdlib Require DecimalString.
Import ListNotations.
Local Open Scope string_scope.
Local Open Scope Z_scope.

Set Warnings "-register-all".

(** ** JSON values *)

Inductive Json : Type :=
| JNull
| JBool (b : bool)
| JNum (n : Z)
| JStr (s : string)
| JArr (items : list Json)
| JObj (fields : list (string * Json)).

(** A JavaScript object literal, read by property name. *)
Definition Obj := list (string * Json).

Fixpoint prop (o : Obj) (k : string) : option Json :=
  match o with
  | [] => None
  | (k', v) :: rest => if String.eqb k' k then Some v else prop rest k
  end.

(** [!!value] for a property that may be absent ([undefined]). *)
Definition truthy (v : option Json) : bool :=
  match v with
  | None => false
  | Some JNull => false
  | Some (JBool b) => b
  | Some (JNum n) => negb (n =? 0)
  | Some (JStr s) => negb (String.eqb s "")
  | Some (JArr _) => true
  | Some (JObj _) => true
  end.

(** [typeof value]. *)
Definition typeof (v : option Json) : string :=
  match v with
  | None => "undefined"
  | Some JNull => "object"
  | Some (JBool _) => "boolean"
  | Some (JNum _) => "number"
  | Some (JStr _) => "string"
  | Some (JArr _) => "object"
  | Some (JObj _) => "object"
  end.

(** Does the key [k] occur as a property name anywhere inside [j]? *)
Fixpoint has_key (k : string) (j : Json) : bool :=
  match j with
  | JArr items => existsb (has_key k) items
  | JObj fields =>
      existsb (fun p => match p with
                        | (k', v) => String.eqb k' k || has_key k v
                        end) fields
  | _ => false
  end.

(** Property names of an object, in order; [None] for any other value. *)
Definition keys (j : Json) : option (list string) :=
  match j with
  | JObj fields => Some (map fst fields)
  | _ => None
  end.

(** Decimal rendering of a number, as string concatenation produces it. *)
Definition string_of_Z (n : Z) : string :=
  DecimalString.NilEmpty.string_of_int (Z.to_int n).

(** A text between double quotes. *)
Definition quoted (s : string) : string :=
  String "034"%char (s ++ String "034"%char EmptyString).

(** ASCII letters in lower case: how a route compares a literal segment
    when case sensitive routing is off. *)
Definition lower_ascii (c : ascii) : ascii :=
  let n := nat_of_ascii c in
  if (Nat.leb 65 n && Nat.leb n 90)%bool then ascii_of_nat (n + 32) else c.

Fixpoint lower (s : string) : string :=
  match s with
  | EmptyString => EmptyString
  | String c rest => String (lower_ascii c) (lower rest)
  end.

Definition same_text (a b : string) : bool :=
  String.eqb (lower a) (lower b).

(** ** Rows of the two tables *)

Record User : Type := mkUser {
  user_id : Z;
  firstName : string;
  lastName : string;
  emailAddress : string;
  password : string
}.

Record Course : Type := mkCourse {
  course_id : Z;
  title : string;
  description : string;
  estimatedTime : option string;
  materialsNeeded : option string;
  userId : Z
}.

(** The store: both tables in insertion order and the two
    auto-increment counters. *)
Record Store : Type := mkStore {
  users : list User;
  courses : list Course;
  userSeq : Z;
  courseSeq : Z
}.

(** ** Errors raised while a request is handled *)

(** The errors of [express.json()], by the type the parser gives them:
    a text that is not a JSON object or array, a body over the size limit,
    a charset or a content encoding it does not read, a request cut short,
    a length that differs from the announced one. *)
Inductive ParserFault : Type :=
| entity_parse_failed
| entity_too_large
| charset_unsupported
| encoding_unsupported
| request_aborted
| request_size_invalid.

(** The [status] the parser sets on each of them. *)
Definition fault_status (f : ParserFault) : Z :=
  match f with
  | entity_parse_failed => 400
  | entity_too_large => 413
  | charset_unsupported => 415
  | encoding_unsupported => 415
  | request_aborted => 400
  | request_size_invalid => 400
  end.

Inductive Exception : Type :=
| BodyParserError (fault : ParserFault)
    (* raised by [express.json()], with its [status] *)
| TypeError (reading : string)
    (* a property read on [null] *)
| IllegalArguments (types : string)
    (* bcryptjs given something that is not a string *)
| SequelizeValidationError (detail : string)
    (* the model's own validation refused the values *)
| SequelizeUniqueConstraintError (msg : string)
    (* [unique: { msg }] of the model definition *)
| SequelizeForeignKeyConstraintError (column : string)
| HttpError (code : Z) (msg : string).
    (* an [Error] whose [status] property was set by the application *)

(** [err.status]: the errors of the body parser and the application's
    own carry one. *)
Definition err_status (e : Exception) : option Z :=
  match e with
  | BodyParserError fault => Some (fault_status fault)
  | HttpError code _ => Some code
  | _ => None
  end.

(** ** What the handlers use of the third-party packages *)

Record Credentials : Type := mkCredentials {
  name : string;
  pass : string
}.

Record Library : Type := mkLibrary {
  (* express-validator: the [isEmail()] standard validator applied to the
     value of a field ([None] when the field is absent) *)
  isEmail : option Json -> bool;
  (* bcryptjs: salt generation from the generator state, hashing with a
     salt, comparison of a secret with a stored hash *)
  genSaltSync : nat -> string;
  hashSync : string -> string -> string;
  compareSync : string -> string -> bool;
  (* Sequelize: the text stored for a number or a boolean given to a
     STRING/TEXT attribute, and the integer stored for a value that is not
     a JSON number given to an INTEGER attribute *)
  coerceText : Json -> option string;
  coerceInt : Json -> option Z;
  (* Sequelize: the primary key a path parameter denotes *)
  pkOf : string -> option Z;
  (* [err.message] and [err.stack] of the errors whose text the packages
     and the runtime choose *)
  describe : Exception -> string;
  stackOf : Exception -> string
}.

(** [err.message]. The unique-constraint text is the [msg] of the model
    definition and the application's errors carry their own. *)
Definition err_message (lib : Library) (e : Exception) : string :=
  match e with
  | SequelizeUniqueConstraintError msg => msg
  | HttpError _ msg => msg
  | _ => describe lib e
  end.

(** ** The world a request runs in, and computations that may throw *)

Record World : Type := mkWorld {
  db : Store;
  console : list string;   (* lines written by console.log / warn / error *)
  entropy : nat            (* state of the salt generator *)
}.

Definition set_db (w : World) (s : Store) : World :=
  mkWorld s (console w) (entropy w).

Definition print (line : string) (w : World) : World :=
  mkWorld (db w) (console w ++ [line])%list (entropy w).

Inductive Result (A : Type) : Type :=
| Ok (a : A)
| Throw (e : Exception).
Arguments Ok {A} a.
Arguments Throw {A} e.

(** An [async] body: it reads and writes the world and either returns
    or throws. Effects made before a throw stay. *)
Definition M (A : Type) : Type := World -> Result A * World.

Definition ret {A} (a : A) : M A := fun w => (Ok a, w).

Definition throw {A} (e : Exception) : M A := fun w => (Throw e, w).

Definition bind {A B} (c : M A) (k : A -> M B) : M B :=
  fun w =>
    match c w with
    | (Ok a, w') => k a w'
    | (Throw e, w') => (Throw e, w')
    end.

Notation "x <- c ;; k" := (bind c (fun x => k))
  (at level 61, c at next level, right associativity).
Notation "c ;;; k" := (bind c (fun _ => k))
  (at level 61, right associativity).

(** ** The persistence layer: the two models *)

Section Models.

Variable lib : Library.

(** Value of a STRING/TEXT attribute that does not allow null: [None]
    when the model's validation refuses it (absent or null: notNull
    violation; array or object: string violation). *)
Definition textAttr (v : option Json) : option string :=
  match v with
  | None => None
  | Some JNull => None
  | Some (JStr s) => Some s
  | Some (JArr _) => None
  | Some (JObj _) => None
  | Some other => coerceText lib other
  end.

(** Value of a STRING attribute that allows null: absent and null are
    both stored as null. *)
Definition optTextAttr (v : option Json) : option (option string) :=
  match v with
  | None => Some None
  | Some JNull => Some None
  | Some other => option_map Some (textAttr (Some other))
  end.

(** Value of the INTEGER foreign key, which does not allow null. *)
Definition intAttr (v : option Json) : option Z :=
  match v with
  | None => None
  | Some JNull => None
  | Some (JNum n) => Some n
  | Some other => coerceInt lib other
  end.

(** The model's [validate: { isEmail: true }] on the text to store: the
    same check as the chain's, applied to that text. *)
Definition emailAttr (v : option Json) : option string :=
  match textAttr v with
  | Some s => if isEmail lib (Some (JStr s)) then Some s else None
  | None => None
  end.

Definition refused {A} (attr : string) (v : option A) : list string :=
  match v with
  | None => [attr]
  | Some _ => []
  end.

(** [models.User.findAll()]; the query itself does not fail. *)
Definition User_findAll (w : World) : list User := users (db w).

(** [models.User.create({ firstName, lastName, emailAddress, password })]:
    validation of the values, then the insert, which the unique index on
    [emailAddress] may refuse. *)
Definition User_create (fn ln em : option Json) (pw : string) : M User :=
  fun w =>
    let s := db w in
    match textAttr fn, textAttr ln, emailAttr em with
    | Some f, Some l, Some e =>
        if existsb (fun u => String.eqb (emailAddress u) e) (users s)
        then (Throw (SequelizeUniqueConstraintError
                       "Email address already in use!"), w)
        else
          let u := mkUser (userSeq s) f l e pw in
          (Ok u, set_db w (mkStore (users s ++ [u]) (courses s)
                                   (userSeq s + 1) (courseSeq s)))
    | f, l, e =>
        (Throw (SequelizeValidationError
                  (String.concat ","
                     (refused "firstName" f ++ refused "lastName" l
                      ++ refused "emailAddress" e)%list)), w)
    end.

(** The row joined through the [owner] association. *)
Definition owner_of (s : Store) (c : Course) : option User :=
  find (fun u => user_id u =? userId c) (users s).

(** [findAll] with the owner included. *)
Definition Course_findAll_owner : M (list (Course * option User)) :=
  fun w =>
    (Ok (map (fun c => (c, owner_of (db w) c)) (courses (db w))), w).

(** The row a [findByPk] query selects: none for an absent key or one
    that denotes no row. *)
Definition row_with_pk (s : Store) (id : option string) : option Course :=
  match id with
  | None => None
  | Some param =>
      match pkOf lib param with
      | Some k => find (fun c => course_id c =? k) (courses s)
      | None => None
      end
  end.

Definition Course_findByPk (id : option string) : M (option Course) :=
  fun w => (Ok (row_with_pk (db w) id), w).

(** [findByPk] with the owner included. *)
Definition Course_findByPk_owner (id : option string)
  : M (option (Course * option User)) :=
  course <- Course_findByPk id ;;
  fun w => (Ok (option_map (fun c => (c, owner_of (db w) c)) course), w).

(** [models.Course.create({ title, description, estimatedTime,
    materialsNeeded, userId })]. *)
Definition Course_create (t d et mn uid : option Json) : M Course :=
  fun w =>
    let s := db w in
    match textAttr t, textAttr d, optTextAttr et, optTextAttr mn,
          intAttr uid with
    | Some t', Some d', Some et', Some mn', Some o =>
        if existsb (fun u => user_id u =? o) (users s)
        then
          let c := mkCourse (courseSeq s) t' d' et' mn' o in
          (Ok c, set_db w (mkStore (users s) (courses s ++ [c])
                                   (userSeq s) (courseSeq s + 1)))
        else (Throw (SequelizeForeignKeyConstraintError "userId"), w)
    | t', d', et', mn', o =>
        (Throw (SequelizeValidationError
                  (String.concat ","
                     (refused "title" t' ++ refused "description" d'
                      ++ refused "estimatedTime" et'
                      ++ refused "materialsNeeded" mn'
                      ++ refused "userId" o)%list)), w)
    end.

(** What [update] does with one attribute of the values object:
    an [undefined] value is left out of the statement. *)
Inductive Change (A : Type) : Type :=
| Keep
| Assign (a : A)
| Refuse.
Arguments Keep {A}.
Arguments Assign {A} a.
Arguments Refuse {A}.

Definition change_of {A} (attr : option Json -> option A)
    (v : option Json) : Change A :=
  match v with
  | None => Keep
  | Some _ => match attr v with
              | Some a => Assign a
              | None => Refuse
              end
  end.

Definition apply_change {A} (c : Change A) (old : A) : A :=
  match c with
  | Assign a => a
  | _ => old
  end.

Definition is_refused {A} (attr : string) (c : Change A) : list string :=
  match c with
  | Refuse => [attr]
  | _ => []
  end.

(** [models.Course.update({ title, description, estimatedTime,
    materialsNeeded }, { where: { id } })]. *)
Definition Course_update (t d et mn : option Json) (id : option string)
  : M unit :=
  fun w =>
    let s := db w in
    let ct := change_of textAttr t in
    let cd := change_of textAttr d in
    let cet := change_of optTextAttr et in
    let cmn := change_of optTextAttr mn in
    match (is_refused "title" ct ++ is_refused "description" cd
           ++ is_refused "estimatedTime" cet
           ++ is_refused "materialsNeeded" cmn)%list with
    | [] =>
        let k := match id with
                 | Some param => pkOf lib param
                 | None => None
                 end in
        let upd c :=
          if match k with Some k' => course_id c =? k' | None => false end
          then mkCourse (course_id c)
                        (apply_change ct (title c))
                        (apply_change cd (description c))
                        (apply_change cet (estimatedTime c))
                        (apply_change cmn (materialsNeeded c))
                        (userId c)
          else c in
        (Ok tt, set_db w (mkStore (users s) (map upd (courses s))
                                  (userSeq s) (courseSeq s)))
    | bad => (Throw (SequelizeValidationError (String.concat "," bad)), w)
    end.

(** [models.Course.destroy({ where: { id } })]. *)
Definition Course_destroy (id : option string) : M unit :=
  fun w =>
    let s := db w in
    let k := match id with
             | Some param => pkOf lib param
             | None => None
             end in
    let stays c :=
      negb match k with Some k' => course_id c =? k' | None => false end in
    (Ok tt, set_db w (mkStore (users s) (filter stays (courses s))
                              (userSeq s) (courseSeq s))).

(** [bcryptjs.hashSync(s)]: a fresh salt, then the hash. It throws when
    [s] is not a string. *)
Definition bcryptjs_hashSync (s : option Json) : M string :=
  fun w =>
    match s with
    | Some (JStr plain) =>
        (Ok (hashSync lib (genSaltSync lib (entropy w)) plain),
         mkWorld (db w) (console w) (S (entropy w)))
    | other =>
        (Throw (IllegalArguments (typeof other ++ ", string")),
         mkWorld (db w) (console w) (S (entropy w)))
    end.

End Models.

(** ** Express: requests, responses, middleware *)

Inductive Method : Type := GET | POST | PUT | DELETE.

(** An incoming request after [express.json()]: the path as its list of
    segments, the result of [auth(req)] ([None] when there is no usable
    Authorization header) and the parsed body. The checked fields are
    looked up in the body. *)
Record Request : Type := mkRequest {
  method : Method;
  path : list string;
  authorization : option Credentials;
  body : Obj
}.

(** The [req] object as the middleware of a route see it. *)
Record Req : Type := mkReq {
  request : Request;
  params : list (string * string);
  currentUser : option User;
  validationErrors : list string   (* the [msg] of each recorded error *)
}.

Definition record_errors (req : Req) (msgs : list string) : Req :=
  mkReq (request req) (params req) (currentUser req)
        (validationErrors req ++ msgs).

(** [req.currentUser = user]. *)
Definition with_user (req : Req) (user : User) : Req :=
  mkReq (request req) (params req) (Some user) (validationErrors req).

Definition param (req : Req) (k : string) : option string :=
  match find (fun p => String.eqb (fst p) k) (params req) with
  | Some p => Some (snd p)
  | None => None
  end.

Record Response : Type := mkResponse {
  status : Z;
  location : option string;
  payload : option Json
}.

(** [res.status(code).json(value)], [res.json(value)] and
    [res.location(url).status(code).end()]. *)
Definition status_json (code : Z) (value : Json) : Response :=
  mkResponse code None (Some value).

Definition json (value : Json) : Response := status_json 200 value.

Definition location_status_end (url : string) (code : Z) : Response :=
  mkResponse code (Some url) None.

Definition status_end (code : Z) : Response := mkResponse code None None.

(** What a middleware does with the request: pass it on, answer it, or
    hand an error to the error handler. *)
Inductive Step : Type :=
| Next (req : Req)
| Send (res : Response)
| NextErr (err : Exception).

Definition Middleware : Type := Req -> World -> Step * World.

(** [asyncHandler(cb)]: a throw inside [cb] becomes [next(err)]. *)
Definition asyncHandler (cb : Req -> M Response) : Middleware :=
  fun req w =>
    match cb req w with
    | (Ok res, w') => (Send res, w')
    | (Throw err, w') => (NextErr err, w')
    end.

(** ** express-validator: chains of validators *)

Inductive Validator : Type :=
| Exists (checkNull checkFalsy : bool)
| IsEmail.

Record ValidationChain : Type := mkChain {
  field : string;
  validators : list (Validator * string)   (* each with its message *)
}.

Definition check (f : string) : ValidationChain := mkChain f [].

Definition add_validator (v : Validator) (c : ValidationChain)
  : ValidationChain :=
  mkChain (field c) (validators c ++ [(v, "Invalid value")]).

(** [.withMessage(m)] sets the message of the validator added last. *)
Definition withMessage (m : string) (c : ValidationChain)
  : ValidationChain :=
  mkChain (field c)
    (match rev (validators c) with
     | (v, _) :: earlier => rev earlier ++ [(v, m)]
     | [] => []
     end).

(** [.exists({ checkNull, checkFalsy })] and [.isEmail()]. *)
Definition exists_ (checkNull checkFalsy : bool) (c : ValidationChain)
  : ValidationChain :=
  add_validator (Exists checkNull checkFalsy) c.

Definition isEmail_ (c : ValidationChain) : ValidationChain :=
  add_validator IsEmail c.

(** Method chaining, read left to right as in the source. *)
Notation "c |> f" := (f c) (at level 50, left associativity, only parsing).

Section Validation.

Variable lib : Library.

(** Whether a validator accepts the value of the field. *)
Definition accepts (v : Validator) (value : option Json) : bool :=
  match v with
  | Exists checkNull checkFalsy =>
      if checkFalsy then truthy value
      else if checkNull then
        match value with
        | None => false
        | Some JNull => false
        | Some _ => true
        end
      else
        match value with
        | None => false
        | Some _ => true
        end
  | IsEmail => isEmail lib value
  end.

(** Every validator of the chain runs; each one that fails records
    its message. *)
Definition run_chain (c : ValidationChain) (b : Obj) : list string :=
  flat_map (fun vm => if accepts (fst vm) (prop b (field c))
                      then [] else [snd vm])
           (validators c).

(** A chain used as middleware: it records its errors and passes on. *)
Definition validate (c : ValidationChain) : Middleware :=
  fun req w =>
    (Next (record_errors req (run_chain c (body (request req)))), w).

End Validation.

(** [validationResult(req)] and the list of messages drawn from it. *)
Definition validationResult (req : Req) : list string :=
  validationErrors req.

Definition isEmpty {A} (l : list A) : bool :=
  match l with
  | [] => true
  | _ => false
  end.

(** ** The router *)

Section Router.

Variable lib : Library.

Definition access_denied : Response :=
  status_json 401 (JObj [("message", JStr "Access Denied")]).

(** Middleware to authenticate the request using Basic Authentication. *)
Definition authenticateUser : Middleware :=
  fun req w =>
    let credentials := authorization (request req) in
    let '(message, req1, w1) :=
      match credentials with
      | Some credentials =>
          let users := User_findAll w in
          let user :=
            find (fun u => String.eqb (emailAddress u) (name credentials))
                 users in
          match user with
          | Some user =>
              let authenticated :=
                compareSync lib (pass credentials) (password user) in
              if authenticated then
                (None,
                 with_user req user,
                 print ("Authentication successful for emailAdress: "
                        ++ emailAddress user) w)
              else
                (Some ("Authentication failure: " ++ emailAddress user),
                 req, w)
          | None =>
              (Some ("User not found : " ++ name credentials), req, w)
          end
      | None => (Some "Auth header not found", req, w)
      end in
    (* [if (message)]: neither null nor the empty string *)
    match message with
    | Some text =>
        if negb (String.eqb text "")
        then (Send access_denied, print text w1)
        else (Next req1, w1)
    | None => (Next req1, w1)
    end.

(** The owner's attributes that the course queries select. *)
Definition user_json (u : User) : Json :=
  JObj [("id", JNum (user_id u));
        ("firstName", JStr (firstName u));
        ("lastName", JStr (lastName u));
        ("emailAddress", JStr (emailAddress u))].

Definition nullable (s : option string) : Json :=
  match s with
  | Some text => JStr text
  | None => JNull
  end.

(** A course row with its owner, without the audit timestamps. *)
Definition course_json (row : Course * option User) : Json :=
  let (c, owner) := row in
  JObj [("id", JNum (course_id c));
        ("title", JStr (title c));
        ("description", JStr (description c));
        ("estimatedTime", nullable (estimatedTime c));
        ("materialsNeeded", nullable (materialsNeeded c));
        ("userId", JNum (userId c));
        ("owner", match owner with
                  | Some u => user_json u
                  | None => JNull
                  end)].

(** The answer for a request whose validation recorded errors. *)
Definition validation_failed (errors : list string) : Response :=
  status_json 400 (JObj [("errors", JArr (map JStr errors))]).

(** GET /users *)
Definition get_users : Req -> M Response :=
  fun req =>
    match currentUser req with
    | Some user =>
        ret (json (JObj [("id", JNum (user_id user));
                         ("firstName", JStr (firstName user));
                         ("lastName", JStr (lastName user));
                         ("emailAddress", JStr (emailAddress user))]))
    | None => throw (TypeError "id")
    end.

Definition user_rules : list ValidationChain :=
  [ check "firstName"
      |> exists_ true true
      |> withMessage ("Please provide  " ++ quoted "firstName");
    check "lastName"
      |> exists_ true true
      |> withMessage ("Please provide " ++ quoted "lastName");
    check "emailAddress"
      |> exists_ true true
      |> withMessage ("Please provide " ++ quoted "emailAddress")
      |> isEmail_
      |> withMessage ("Please provide valid " ++ quoted "email address"
                      ++ " ");
    check "password"
      |> exists_ true true
      |> withMessage ("Please provide " ++ quoted "password") ].

(** POST /users *)
Definition post_users : Req -> M Response :=
  fun req =>
    let errors := validationResult req in
    if negb (isEmpty errors) then
      ret (validation_failed errors)
    else
      let body := body (request req) in
      password <- bcryptjs_hashSync lib (prop body "password") ;;
      _ <- User_create lib (prop body "firstName") (prop body "lastName")
                       (prop body "emailAddress") password ;;
      ret (location_status_end "/" 201).

(** GET /courses *)
Definition get_courses : Req -> M Response :=
  fun req =>
    courses <- Course_findAll_owner ;;
    (* an array is never falsy, so the other branch is never taken *)
    ret (status_json 200 (JArr (map course_json courses))).

(** GET /courses/:id *)
Definition get_course : Req -> M Response :=
  fun req =>
    course <- Course_findByPk_owner lib (param req "id") ;;
    match course with
    | Some course =>
        ret (status_json 200 (JObj [("course", course_json course)]))
    | None =>
        ret (status_json 404 (JObj [("message", JStr "Course not exist")]))
    end.

Definition course_rules : list ValidationChain :=
  [ check "title"
      |> exists_ true true
      |> withMessage ("Please provide " ++ quoted "title");
    check "description"
      |> exists_ true true
      |> withMessage ("Please provide " ++ quoted "description") ].

(** POST /courses *)
Definition post_courses : Req -> M Response :=
  fun req =>
    let errors := validationResult req in
    if negb (isEmpty errors) then
      ret (validation_failed errors)
    else
      let body := body (request req) in
      course <- Course_create lib (prop body "title")
                  (prop body "description") (prop body "estimatedTime")
                  (prop body "materialsNeeded") (prop body "userId") ;;
      ret (location_status_end
             ("/courses/" ++ string_of_Z (course_id course)) 201).

Definition course_update_rules : list ValidationChain :=
  [ check "title"
      |> exists_ true true
      |> withMessage ("Please provide " ++ quoted "title");
    check "description"
      |> exists_ true true
      |> withMessage ("Pleas provide " ++ quoted "description") ].

(** PUT /courses/:id *)
Definition put_course : Req -> M Response :=
  fun req =>
    let errors := validationResult req in
    if negb (isEmpty errors) then
      ret (validation_failed errors)
    else
      let body := body (request req) in
      course <- Course_findByPk lib (param req "id") ;;
      let user := currentUser req in
      match course, user with
      | Some course, Some user =>
          if userId course =? user_id user then
            Course_update lib (prop body "title") (prop body "description")
              (prop body "estimatedTime") (prop body "materialsNeeded")
              (param req "id") ;;;
            ret (status_end 204)
          else
            ret (status_json 403 (JStr "User has no course"))
      | None, _ => throw (TypeError "userId")
      | Some _, None => throw (TypeError "id")
      end.

(** DELETE /courses/:id *)
Definition delete_course : Req -> M Response :=
  fun req =>
    course <- Course_findByPk lib (param req "id") ;;
    let user := currentUser req in
    match course, user with
    | Some course, Some user =>
        if userId course =? user_id user then
          Course_destroy lib (param req "id") ;;;
          ret (status_end 204)
        else
          ret (status_json 403 (JStr "User has no course"))
    | None, _ => throw (TypeError "userId")
    | Some _, None => throw (TypeError "id")
    end.

(** A registered route: method, path pattern and middleware stack. *)
Inductive Segment : Type :=
| Lit (text : string)
| Par (name : string).

Record Route : Type := mkRoute {
  route_method : Method;
  route_path : list Segment;
  stack : list Middleware
}.

Definition routes : list Route :=
  [ mkRoute GET [Lit "users"]
      [authenticateUser; asyncHandler get_users];
    mkRoute POST [Lit "users"]
      (map (validate lib) user_rules ++ [asyncHandler post_users]);
    mkRoute GET [Lit "courses"]
      [asyncHandler get_courses];
    mkRoute GET [Lit "courses"; Par "id"]
      [asyncHandler get_course];
    mkRoute POST [Lit "courses"]
      (map (validate lib) course_rules
       ++ [authenticateUser; asyncHandler post_courses]);
    mkRoute PUT [Lit "courses"; Par "id"]
      (map (validate lib) course_update_rules
       ++ [authenticateUser; asyncHandler put_course]);
    mkRoute DELETE [Lit "courses"; Par "id"]
      [authenticateUser; asyncHandler delete_course] ].

Definition Method_eqb (a b : Method) : bool :=
  match a, b with
  | GET, GET | POST, POST | PUT, PUT | DELETE, DELETE => true
  | _, _ => false
  end.

(** Matching a path against a pattern; the parameters it binds. *)
Fixpoint match_path (pat : list Segment) (p : list string)
  : option (list (string * string)) :=
  match pat, p with
  | [], [] => Some []
  | Lit text :: pat', seg :: p' =>
      if same_text text seg then match_path pat' p' else None
  | Par name :: pat', seg :: p' =>
      option_map (cons (name, seg)) (match_path pat' p')
  | _, _ => None
  end.

(** How a middleware stack, or the whole router, leaves a request. *)
Inductive Outcome : Type :=
| Sent (res : Response)
| Failed (err : Exception)
| Passed (req : Req).

Fixpoint run_stack (ms : list Middleware) (req : Req) (w : World)
  : Outcome * World :=
  match ms with
  | [] => (Passed req, w)
  | m :: rest =>
      match m req w with
      | (Next req', w') => run_stack rest req' w'
      | (Send res, w') => (Sent res, w')
      | (NextErr err, w') => (Failed err, w')
      end
  end.

(** The routes are tried in the order of registration. *)
Fixpoint dispatch (rs : list Route) (p : list string) (req : Req)
    (w : World) : Outcome * World :=
  match rs with
  | [] => (Passed req, w)
  | r :: rest =>
      if Method_eqb (route_method r) (method (request req)) then
        match match_path (route_path r) p with
        | Some ps =>
            match run_stack (stack r)
                    (mkReq (request req) ps (currentUser req)
                           (validationErrors req)) w with
            | (Passed req', w') => dispatch rest p req' w'
            | done => done
            end
        | None => dispatch rest p req w
        end
      else dispatch rest p req w
  end.

Definition router (p : list string) (rq : Request) (w : World)
  : Outcome * World :=
  dispatch routes p (mkReq rq [] None []) w.

End Router.

(** ** The application *)

Section App.

Variable lib : Library.

(** The variable that enables global error logging. *)
Variable enableGlobalErrorLogging : bool.

Definition routeNotFound : Exception := HttpError 404 "Route Not Found".

(** The global error handler: status [err.status || 500]. *)
Definition errorHandler (err : Exception) (w : World) : Response * World :=
  let w' :=
    if enableGlobalErrorLogging
    then print ("Global error handler: " ++ stackOf lib err) w
    else w in
  (status_json
     (match err_status err with
      | Some code => if code =? 0 then 500 else code
      | None => 500
      end)
     (JObj [("error", JObj [("message", JStr (err_message lib err))])]),
   w').

Definition greeting : Response :=
  json (JObj [("message", JStr "Welcome to the REST API project Bitches!")]).

(** [app.use(prefix, ...)]: the rest of a path below the mount point. *)
Definition mounted_at (prefix : string) (p : list string)
  : option (list string) :=
  match p with
  | seg :: rest => if same_text prefix seg then Some rest else None
  | [] => None
  end.

(** Where a request that left the router ends: in the global error
    handler unless a response was sent. *)
Definition settle (o : Outcome * World) : Response * World :=
  match o with
  | (Sent res, w') => (res, w')
  | (Failed err, w') => errorHandler err w'
  | (Passed _, w') => errorHandler routeNotFound w'
  end.

(** The application after its body parser, for a request whose body
    [express.json()] has parsed ([server] below runs the parser first): the
    greeting, the routes mounted on /api, then the 404 middleware; every
    error ends in the global error handler. *)
Definition app (rq : Request) (w : World) : Response * World :=
  match method rq, path rq with
  | GET, [] => (greeting, w)
  | _, _ =>
      match mounted_at "api" (path rq) with
      | Some p => settle (router lib p rq w)
      | None => errorHandler routeNotFound w
      end
  end.

(** A request as it arrives, before [express.json()]: the body is absent
    or not announced as JSON, or a JSON text with its value, or a body the
    parser refuses. *)
Inductive Payload : Type :=
| NoJson
| Document (value : Json)
| Faulty (fault : ParserFault).

Record Incoming : Type := mkIncoming {
  in_method : Method;
  in_path : list string;
  in_authorization : option Credentials;
  payload_in : Payload
}.

(** [express.json()]: [req.body] is the empty object without a JSON
    body; in strict mode only an object or an array is accepted, and an
    array has none of the named properties the handlers read. *)
Definition express_json (p : Payload) : Result Obj :=
  match p with
  | NoJson => Ok []
  | Document (JObj fields) => Ok fields
  | Document (JArr _) => Ok []
  | Document _ => Throw (BodyParserError entity_parse_failed)
  | Faulty fault => Throw (BodyParserError fault)
  end.

(** The server: the body parser comes first, so its errors go straight
    to the global error handler; then the application. *)
Definition server (inc : Incoming) (w : World) : Response * World :=
  match express_json (payload_in inc) with
  | Ok parsed =>
      app (mkRequest (in_method inc) (in_path inc) (in_authorization inc)
                     parsed) w
  | Throw err => errorHandler err w
  end.

End App.

(** ** A reference instance of the library record

    It lets the model run on concrete requests: an address is accepted
    when it is a text with an at sign strictly inside, a hash is the salt
    followed by the secret, a path parameter denotes a key when it is a
    decimal numeral. *)

Module Reference.

Definition isEmail (v : option Json) : bool :=
  match v with
  | Some (JStr s) =>
      match String.index 0 "@" s with
      | Some n => negb (Nat.eqb n 0) && Nat.ltb (S n) (String.length s)
      | None => false
      end
  | _ => false
  end.

Definition genSaltSync (n : nat) : string :=
  "$2a$10$" ++ string_of_Z (Z.of_nat n).

Definition hashSync (salt plain : string) : string :=
  salt ++ ":" ++ plain.

Definition compareSync (secret hash : string) : bool :=
  match String.index 0 ":" hash with
  | Some n =>
      String.eqb (String.substring (S n) (String.length hash - S n) hash)
                 secret
  | None => false
  end.

Definition pkOf (text : string) : option Z :=
  option_map Z.of_int (DecimalString.NilEmpty.int_of_string text).

Definition describe (e : Exception) : string :=
  match e with
  | BodyParserError entity_too_large => "request entity too large"
  | BodyParserError _ => "the body cannot be read"
  | TypeError reading => "Cannot read properties of null: " ++ reading
  | IllegalArguments types => "Illegal arguments: " ++ types
  | SequelizeValidationError detail => "Validation error: " ++ detail
  | SequelizeUniqueConstraintError msg => msg
  | SequelizeForeignKeyConstraintError column =>
      "FOREIGN KEY constraint failed: " ++ column
  | HttpError _ msg => msg
  end.

Definition library : Library :=
  mkLibrary isEmail genSaltSync hashSync compareSync
            (fun _ => None) (fun _ => None) pkOf describe describe.

End Reference.

(** ** Notions used to state the properties *)

Section Notions.

Variable lib : Library.

(** The user a request authenticates as: the first stored user whose
    address is the presented name, provided the secret compares equal. *)
Definition authenticates (s : Store) (rq : Request) (u : User) : Prop :=
  exists c,
    authorization rq = Some c /\
    find (fun u' => String.eqb (emailAddress u') (name c)) (users s) = Some u /\
    compareSync lib (pass c) (password u) = true.

(** The three ways authentication is refused. *)
Inductive Rejected (s : Store) (rq : Request) : Prop :=
| header_absent :
    authorization rq = None -> Rejected s rq
| user_not_found c :
    authorization rq = Some c ->
    find (fun u => String.eqb (emailAddress u) (name c)) (users s) = None ->
    Rejected s rq
| password_mismatch c u :
    authorization rq = Some c ->
    find (fun u' => String.eqb (emailAddress u') (name c)) (users s) = Some u ->
    compareSync lib (pass c) (password u) = false ->
    Rejected s rq.

(** The routes registered with [authenticateUser] in their stack. *)
Inductive AuthenticatedRoute (rq : Request) : Prop :=
| GET_users :
    method rq = GET -> path rq = ["api"; "users"] ->
    AuthenticatedRoute rq
| POST_courses :
    method rq = POST -> path rq = ["api"; "courses"] ->
    AuthenticatedRoute rq
| PUT_course id :
    method rq = PUT -> path rq = ["api"; "courses"; id] ->
    AuthenticatedRoute rq
| DELETE_course id :
    method rq = DELETE -> path rq = ["api"; "courses"; id] ->
    AuthenticatedRoute rq.

(** The messages all the chains of a rule list record for a body. *)
Definition run_rules (rules : list ValidationChain) (b : Obj) : list string :=
  flat_map (fun c => run_chain lib c b) rules.

(** Some validator of some chain refuses the body. *)
Definition rule_fails (rules : list ValidationChain) (b : Obj) : bool :=
  existsb (fun c =>
             existsb (fun vm => negb (accepts lib (fst vm) (prop b (field c))))
                     (validators c))
          rules.

(** The message of a check, recorded when the check fails. *)
Definition when_fails (ok : bool) (msg : string) : list string :=
  if ok then [] else [msg].

(** The messages POST /users answers with, written out check by check:
    presence of the first name, of the last name, of the address, format
    of the address, presence of the password. *)
Definition user_messages (b : Obj) : list string :=
  (when_fails (truthy (prop b "firstName"))
     ("Please provide  " ++ quoted "firstName")
   ++ when_fails (truthy (prop b "lastName"))
        ("Please provide " ++ quoted "lastName")
   ++ when_fails (truthy (prop b "emailAddress"))
        ("Please provide " ++ quoted "emailAddress")
   ++ when_fails (isEmail lib (prop b "emailAddress"))
        ("Please provide valid " ++ quoted "email address" ++ " ")
   ++ when_fails (truthy (prop b "password"))
        ("Please provide " ++ quoted "password"))%list.

(** The fields with at least one failing validator, in rule order. *)
Definition failing_fields (rules : list ValidationChain) (b : Obj)
  : list string :=
  map field
      (filter (fun c =>
                 existsb (fun vm =>
                            negb (accepts lib (fst vm) (prop b (field c))))
                         (validators c))
              rules).

End Notions.


(** The answers of the application. *)
Inductive Answer : Response -> Prop :=
| answers_greeting :
    Answer greeting
| answers_user u :
    Answer (json (user_json u))
| answers_errors msgs :
    msgs <> [] -> Answer (validation_failed msgs)
| answers_created url :
    Answer (location_status_end url 201)
| answers_courses rows :
    Answer (status_json 200 (JArr (map course_json rows)))
| answers_course row :
    Answer (status_json 200 (JObj [("course", course_json row)]))
| answers_no_course :
    Answer (status_json 404 (JObj [("message", JStr "Course not exist")]))
| answers_no_content :
    Answer (status_end 204)
| answers_forbidden :
    Answer (status_json 403 (JStr "User has no course"))
| answers_denied :
    Answer access_denied
| answers_no_route :
    Answer (status_json 404
              (JObj [("error", JObj [("message", JStr "Route Not Found")])]))
| answers_error text :
    Answer (status_json 500
              (JObj [("error", JObj [("message", JStr text)])])).

(** No property named [password] anywhere in the body. *)
Definition hides_password (r : Response) : Prop :=
  match payload r with
  | Some j => has_key "password" j = false
  | None => True
  end.

(** Errors that carry no status of their own. *)
Definition no_status (e : Exception) : Prop := err_status e = None.

(** A computation whose result satisfies [PA] and whose error, if it
    throws, satisfies [Q]. *)
Definition ensures {A} (c : M A) (PA : A -> Prop) (Q : Exception -> Prop)
  : Prop :=
  forall w,
    match fst (c w) with
    | Ok a => PA a
    | Throw e => Q e
    end.

(** A middleware whose responses satisfy [P] and whose errors satisfy
    [Q]. *)
Definition sound (P : Response -> Prop) (Q : Exception -> Prop)
    (m : Middleware) : Prop :=
  forall req w,
    match fst (m req w) with
    | Send r => P r
    | NextErr e => Q e
    | Next _ => True
    end.


(** ** Sample data on which the model is run *)

Module Sample.

Definition ann : User :=
  mkUser 1 "Ann" "Lee" "ann@x.com" "$2a$10$0:secret1".

Definition bob : User :=
  mkUser 2 "Bob" "Ray" "bob@x.com" "$2a$10$1:hunter2".

Definition intro : Course :=
  mkCourse 1 "Intro" "desc" None None 1.

(** Two users and one course, which Ann owns. *)
Definition world : World :=
  mkWorld (mkStore [ann; bob] [intro] 3 2) [] 2.

Definition as_ann : option Credentials :=
  Some (mkCredentials "ann@x.com" "secret1").

Definition as_bob : option Credentials :=
  Some (mkCredentials "bob@x.com" "hunter2").

Definition course_body : Obj :=
  [("title", JStr "Intro"); ("description", JStr "desc")].

Definition ann_body : Obj :=
  [("firstName", JStr "Ann"); ("lastName", JStr "Lee");
   ("emailAddress", JStr "ann@x.com"); ("password", JStr "secret1")].

End Sample.


(** ** Notions for the properties of the whole application *)

(** The first registered route that a method and a path select. *)
Fixpoint first_match (rs : list Route) (m : Method) (p : list string)
  : option (Route * list (string * string)) :=
  match rs with
  | [] => None
  | r :: rest =>
      if Method_eqb (route_method r) m then
        match match_path (route_path r) p with
        | Some ps => Some (r, ps)
        | None => first_match rest m p
        end
      else first_match rest m p
  end.

(** Some route of the router mounted on /api is registered for the
    method and the path of the request. *)
Definition routed (lib : Library) (rq : Request) : bool :=
  match mounted_at "api" (path rq) with
  | Some p =>
      match first_match (routes lib) (method rq) p with
      | Some _ => true
      | None => false
      end
  | None => false
  end.

(** The spelling a route reads a path under: the segment below the mount
    point in lower case, where the literal of every route stands. *)
Definition canon (p : list string) : list string :=
  match p with
  | seg :: rest => lower seg :: rest
  | [] => []
  end.

(** Two paths with the same segments up to the case of ASCII letters. *)
Fixpoint same_path (p q : list string) : bool :=
  match p, q with
  | [], [] => true
  | a :: p', b :: q' => same_text a b && same_path p' q'
  | _, _ => false
  end.

(** Where the application takes a request, whatever the case its path is
    written in. *)
Inductive Routing (lib : Library) (rq : Request) : Prop :=
| to_greeting :
    method rq = GET -> path rq = [] -> Routing lib rq
| to_get_users a b :
    method rq = GET -> path rq = [a; b] ->
    lower a = "api" -> lower b = "users" -> Routing lib rq
| to_post_users a b :
    method rq = POST -> path rq = [a; b] ->
    lower a = "api" -> lower b = "users" -> Routing lib rq
| to_get_courses a b :
    method rq = GET -> path rq = [a; b] ->
    lower a = "api" -> lower b = "courses" -> Routing lib rq
| to_get_course a b id :
    method rq = GET -> path rq = [a; b; id] ->
    lower a = "api" -> lower b = "courses" -> Routing lib rq
| to_post_courses a b :
    method rq = POST -> path rq = [a; b] ->
    lower a = "api" -> lower b = "courses" -> Routing lib rq
| to_put_course a b id :
    method rq = PUT -> path rq = [a; b; id] ->
    lower a = "api" -> lower b = "courses" -> Routing lib rq
| to_delete_course a b id :
    method rq = DELETE -> path rq = [a; b; id] ->
    lower a = "api" -> lower b = "courses" -> Routing lib rq
| to_no_route :
    (method rq = GET -> path rq <> []) -> routed lib rq = false ->
    Routing lib rq.

(** The request the application receives once [express.json()] has
    parsed the body of an incoming one. *)
Definition parsed_request (inc : Incoming) (parsed : Obj) : Request :=
  mkRequest (in_method inc) (in_path inc) (in_authorization inc) parsed.

(** The answer of the 404 middleware through the error handler. *)
Definition route_not_found : Response :=
  mkResponse 404 None
    (Some (JObj [("error", JObj [("message", JStr "Route Not Found")])])).

(** What the handlers of the router themselves send. *)
Inductive Sends : Response -> Prop :=
| sends_user u :
    Sends (json (user_json u))
| sends_errors msgs :
    msgs <> [] -> Sends (validation_failed msgs)
| sends_created url :
    Sends (location_status_end url 201)
| sends_courses rows :
    Sends (status_json 200 (JArr (map course_json rows)))
| sends_course row :
    Sends (status_json 200 (JObj [("course", course_json row)]))
| sends_no_course :
    Sends (status_json 404 (JObj [("message", JStr "Course not exist")]))
| sends_no_content :
    Sends (status_end 204)
| sends_forbidden :
    Sends (status_json 403 (JStr "User has no course")).

(** A middleware that takes the store from one state to a related one. *)
Definition frames (R : Store -> Store -> Prop) (m : Middleware) : Prop :=
  forall req w, R (db w) (db (snd (m req w))).

(** A computation that takes the store from one state to a related
    one, whether it returns or throws. *)
Definition keeps {A} (R : Store -> Store -> Prop) (c : M A) : Prop :=
  forall w, R (db w) (db (snd (c w))).

(** No two users share an address. *)
Definition unique_addresses (s : Store) : Prop :=
  NoDup (map emailAddress (users s)).

(** Every course names a stored user as its owner. *)
Definition owners_exist (s : Store) : Prop :=
  forall c, In c (courses s) ->
            exists u, In u (users s) /\ user_id u = userId c.

(** The ids of each table are distinct and below the counter that
    assigns the next one. *)
Definition fresh_ids (s : Store) : Prop :=
  NoDup (map user_id (users s)) /\
  (forall u, In u (users s) -> user_id u < userSeq s) /\
  NoDup (map course_id (courses s)) /\
  (forall c, In c (courses s) -> course_id c < courseSeq s).

(** The messages the course routes answer with, written out check by
    check; the text for the description differs between POST and PUT. *)
Definition course_messages (b : Obj) : list string :=
  (when_fails (truthy (prop b "title")) ("Please provide " ++ quoted "title")
   ++ when_fails (truthy (prop b "description"))
        ("Please provide " ++ quoted "description"))%list.

Definition course_update_messages (b : Obj) : list string :=
  (when_fails (truthy (prop b "title")) ("Please provide " ++ quoted "title")
   ++ when_fails (truthy (prop b "description"))
        ("Pleas provide " ++ quoted "description"))%list.

(** The elementary changes of the store: a user is added under the next
    id with an address no stored user has; a course is added under the next
    id with a stored user as owner; the courses are rewritten in place by a
    function that keeps ids and owners; some courses are removed. *)
Inductive Transition (s : Store) : Store -> Prop :=
| adds_user u :
    user_id u = userSeq s ->
    existsb (fun u' => String.eqb (emailAddress u') (emailAddress u))
            (users s) = false ->
    Transition s (mkStore (users s ++ [u]) (courses s)
                          (userSeq s + 1) (courseSeq s))
| adds_course c :
    course_id c = courseSeq s ->
    existsb (fun u => user_id u =? userId c) (users s) = true ->
    Transition s (mkStore (users s) (courses s ++ [c])
                          (userSeq s) (courseSeq s + 1))
| rewrites_courses f :
    (forall c, course_id (f c) = course_id c /\ userId (f c) = userId c) ->
    Transition s (mkStore (users s) (map f (courses s))
                          (userSeq s) (courseSeq s))
| removes_courses g :
    Transition s (mkStore (users s) (filter g (courses s))
                          (userSeq s) (courseSeq s)).

(** Any number of elementary changes. *)
Inductive Evolves (s : Store) : Store -> Prop :=
| evolves_refl : Evolves s s
| evolves_step s1 s2 :
    Evolves s s1 -> Transition s1 s2 -> Evolves s s2.

(** The line [authenticateUser] writes for a request: which one depends
    on the credentials presented and the users stored, and each is built
    from the presented name or the stored address only. *)
Inductive AuthLine (lib : Library) (s : Store) (rq : Request)
  : string -> Prop :=
| line_no_header :
    authorization rq = None ->
    AuthLine lib s rq "Auth header not found"
| line_no_user c :
    authorization rq = Some c ->
    find (fun u => String.eqb (emailAddress u) (name c)) (users s) = None ->
    AuthLine lib s rq ("User not found : " ++ name c)
| line_failure c u :
    authorization rq = Some c ->
    find (fun u' => String.eqb (emailAddress u') (name c)) (users s)
      = Some u ->
    compareSync lib (pass c) (password u) = false ->
    AuthLine lib s rq ("Authentication failure: " ++ emailAddress u)
| line_success c u :
    authorization rq = Some c ->
    find (fun u' => String.eqb (emailAddress u') (name c)) (users s)
      = Some u ->
    compareSync lib (pass c) (password u) = true ->
    AuthLine lib s rq
      ("Authentication successful for emailAdress: " ++ emailAddress u).

(** A computation that writes nothing to the console. *)
Definition silent {A} (c : M A) : Prop :=
  forall w, console (snd (c w)) = console w.

(** The lines the global error handler may add: one, and only when
    global error logging is enabled. *)
Definition error_lines (lib : Library) (logging : bool)
    (err : list string) : Prop :=
  err = [] \/
  (logging = true /\
   exists e, err = [("Global error handler: " ++ stackOf lib e)%string]).

(** * Properties *)

Local Open Scope list_scope.

(** ** Running the model *)

(** The sample store is the one three requests build from an empty one:
    Ann and Bob sign up, then Ann creates a course that names her as
    owner. *)
Example sample_world_is_reachable :
  let lib := Reference.library in
  let w0 := mkWorld (mkStore [] [] 1 1) [] 0 in
  let w1 := snd (app lib false
                   (mkRequest POST ["api"; "users"] None Sample.ann_body)
                   w0) in
  let w2 := snd (app lib false
                   (mkRequest POST ["api"; "users"] None
                      [("firstName", JStr "Bob"); ("lastName", JStr "Ray");
                       ("emailAddress", JStr "bob@x.com");
                       ("password", JStr "hunter2")])
                   w1) in
  let w3 := snd (app lib false
                   (mkRequest POST ["api"; "courses"] Sample.as_ann
                      (Sample.course_body ++ [("userId", JNum 1)]))
                   w2) in
  db w3 = db Sample.world /\ entropy w3 = entropy Sample.world.
Proof. split; reflexivity. Qed.

(** The owner updates the course, then deletes it: 204 both times, the
    stored fields follow the update and the row is gone afterwards. *)
Example owner_updates_then_deletes :
  let lib := Reference.library in
  let put := mkRequest PUT ["api"; "courses"; "1"] Sample.as_ann
               [("title", JStr "Intro 2"); ("description", JStr "more");
                ("estimatedTime", JStr "2h")] in
  let del := mkRequest DELETE ["api"; "courses"; "1"] Sample.as_ann [] in
  let w1 := snd (app lib false put Sample.world) in
  let w2 := snd (app lib false del w1) in
  fst (app lib false put Sample.world) = mkResponse 204 None None /\
  courses (db w1) = [mkCourse 1 "Intro 2" "more" (Some "2h") None 1] /\
  fst (app lib false del w1) = mkResponse 204 None None /\
  courses (db w2) = [] /\
  fst (app lib false (mkRequest GET ["api"; "courses"] None []) w2) =
    mkResponse 200 None (Some (JArr [])).
Proof. repeat split. Qed.

(** ** Middleware stacks *)

Section Stacks.

Variable lib : Library.

Lemma record_errors_nil req : record_errors req [] = req.
Proof.
  destruct req; unfold record_errors; simpl.
  now rewrite app_nil_r.
Qed.

Lemma record_errors_app req a b :
  record_errors (record_errors req a) b = record_errors req (a ++ b).
Proof.
  unfold record_errors; simpl. now rewrite app_assoc.
Qed.

(** The chains in front of a stack only add their messages. *)
Lemma run_stack_validate rules rest req w :
  run_stack (map (validate lib) rules ++ rest) req w =
  run_stack rest
    (record_errors req (run_rules lib rules (body (request req)))) w.
Proof.
  revert req. induction rules as [|c rules IH]; intros req; simpl.
  - now rewrite record_errors_nil.
  - unfold validate at 1. rewrite IH. simpl.
    now rewrite record_errors_app.
Qed.

Lemma rule_fails_run_rules rules b :
  rule_fails lib rules b = negb (isEmpty (run_rules lib rules b)).
Proof.
  unfold rule_fails, run_rules.
  induction rules as [|c rules IH]; simpl; [reflexivity|].
  rewrite IH. unfold run_chain.
  induction (validators c) as [|vm vs IHv]; simpl; [reflexivity|].
  destruct (accepts lib (fst vm) (prop b (field c))); simpl; auto.
Qed.

End Stacks.

(** ** Authentication *)

Section Authentication.

Variable lib : Library.

Lemma authenticateUser_accepts req w u :
  authenticates lib (db w) (request req) u ->
  authenticateUser lib req w =
  (Next (with_user req u),
   print ("Authentication successful for emailAdress: " ++ emailAddress u)%string w).
Proof.
  intros (c & Hc & Hf & Hp).
  unfold authenticateUser, User_findAll. rewrite Hc, Hf, Hp. reflexivity.
Qed.

Lemma authenticateUser_rejects req w :
  Rejected lib (db w) (request req) ->
  exists line,
    authenticateUser lib req w = (Send access_denied, print line w).
Proof.
  intros [Hc | c Hc Hf | c u Hc Hf Hp];
    unfold authenticateUser, User_findAll.
  - rewrite Hc. eexists; reflexivity.
  - rewrite Hc, Hf. eexists; reflexivity.
  - rewrite Hc, Hf, Hp. eexists; reflexivity.
Qed.

(** Authentication either accepts a stored user or is refused. *)
Lemma authenticates_or_rejected s rq :
  (exists u, authenticates lib s rq u) \/ Rejected lib s rq.
Proof.
  destruct (authorization rq) as [c|] eqn:Hc.
  - destruct (find (fun u => String.eqb (emailAddress u) (name c)) (users s))
      as [u|] eqn:Hf.
    + destruct (compareSync lib (pass c) (password u)) eqn:Hp.
      * left. exists u, c. auto.
      * right. eapply password_mismatch; eauto.
    + right. eapply user_not_found; eauto.
  - right. now apply header_absent.
Qed.

Lemma authenticates_not_rejected s rq u :
  authenticates lib s rq u -> ~ Rejected lib s rq.
Proof.
  intros (c & Hc & Hf & Hp) [Hn | c' Hc' Hf' | c' u' Hc' Hf' Hp'].
  - congruence.
  - rewrite Hc in Hc'. injection Hc' as <-. congruence.
  - rewrite Hc in Hc'. injection Hc' as <-.
    rewrite Hf in Hf'. injection Hf' as <-. congruence.
Qed.

End Authentication.

(** ** Routing *)

Section Routing.

Variable lib : Library.
Variable logging : bool.

Lemma run_stack_async_last ms cb req w req' w' :
  run_stack (ms ++ [asyncHandler cb]) req w <> (Passed req', w').
Proof.
  revert req w. induction ms as [|m ms IH]; intros req w; simpl.
  - unfold asyncHandler. destruct (cb req w) as [[res|err] w1]; discriminate.
  - destruct (m req w) as [[req1|res|err] w1]; [apply IH | discriminate ..].
Qed.

(** A stack that ends in an [asyncHandler] settles the request, so the
    routes registered after it are not tried. *)
Lemma settled_here ms cb req w (k : Req -> World -> Outcome * World) :
  (let (o, w') := run_stack (ms ++ [asyncHandler cb]) req w in
   match o with
   | Sent res => (Sent res, w')
   | Failed err => (Failed err, w')
   | Passed req' => k req' w'
   end) = run_stack (ms ++ [asyncHandler cb]) req w.
Proof.
  destruct (run_stack (ms ++ [asyncHandler cb]) req w) as [[res|err|req'] w']
    eqn:E; try reflexivity.
  now apply run_stack_async_last in E.
Qed.

Ltac eval_same_text :=
  repeat match goal with
         | |- context [same_text ?a ?b] =>
             let v := eval vm_compute in (same_text a b) in
             progress change (same_text a b) with v
         end.

Ltac find_route Hm :=
  unfold router, routes;
  cbn [dispatch Method_eqb route_method route_path request method
       match_path option_map];
  rewrite Hm;
  repeat (progress (cbn [dispatch Method_eqb route_method route_path
                         request method match_path option_map stack
                         currentUser validationErrors];
                    eval_same_text)).

Lemma router_get_users rq w :
  method rq = GET ->
  router lib ["users"] rq w =
  run_stack [authenticateUser lib; asyncHandler (get_users)]
            (mkReq rq [] None []) w.
Proof.
  intros Hm. find_route Hm.
  apply (settled_here [authenticateUser lib]).
Qed.

Lemma router_post_users rq w :
  method rq = POST ->
  router lib ["users"] rq w =
  run_stack [asyncHandler (post_users lib)]
    (record_errors (mkReq rq [] None [])
                   (run_rules lib user_rules (body rq))) w.
Proof.
  intros Hm. find_route Hm.
  rewrite (settled_here (map (validate lib) user_rules)).
  apply run_stack_validate.
Qed.

Lemma router_post_courses rq w :
  method rq = POST ->
  router lib ["courses"] rq w =
  run_stack [authenticateUser lib; asyncHandler (post_courses lib)]
    (record_errors (mkReq rq [] None [])
                   (run_rules lib course_rules (body rq))) w.
Proof.
  intros Hm. find_route Hm.
  change (map (validate lib) course_rules ++
          [authenticateUser lib; asyncHandler (post_courses lib)])%list
    with ((map (validate lib) course_rules ++ [authenticateUser lib]) ++
          [asyncHandler (post_courses lib)])%list.
  rewrite settled_here. rewrite <- app_assoc.
  apply run_stack_validate.
Qed.

Lemma router_put_course id rq w :
  method rq = PUT ->
  router lib ["courses"; id] rq w =
  run_stack [authenticateUser lib; asyncHandler (put_course lib)]
    (record_errors (mkReq rq [("id", id)] None [])
                   (run_rules lib course_update_rules (body rq))) w.
Proof.
  intros Hm. find_route Hm.
  change (map (validate lib) course_update_rules ++
          [authenticateUser lib; asyncHandler (put_course lib)])%list
    with ((map (validate lib) course_update_rules ++ [authenticateUser lib])
          ++ [asyncHandler (put_course lib)])%list.
  rewrite settled_here. rewrite <- app_assoc.
  apply run_stack_validate.
Qed.

Lemma router_delete_course id rq w :
  method rq = DELETE ->
  router lib ["courses"; id] rq w =
  run_stack [authenticateUser lib; asyncHandler (delete_course lib)]
            (mkReq rq [("id", id)] None []) w.
Proof.
  intros Hm. find_route Hm.
  apply (settled_here [authenticateUser lib]).
Qed.

Lemma app_mounted rq w p :
  path rq = "api" :: p ->
  app lib logging rq w = settle lib logging (router lib p rq w).
Proof.
  intros Hp. unfold app. rewrite Hp. cbn [mounted_at].
  change (same_text "api" "api") with true. now destruct (method rq).
Qed.

End Routing.

(** ** Refused authentication *)

Section Refusal.

Variable lib : Library.
Variable logging : bool.

Lemma refused_stack (h : Req -> M Response) req w :
  Rejected lib (db w) (request req) ->
  exists line,
    run_stack [authenticateUser lib; asyncHandler h] req w =
    (Sent access_denied, print line w).
Proof.
  intros H. destruct (authenticateUser_rejects lib req w H) as [line E].
  exists line. simpl. now rewrite E.
Qed.

Lemma refused_on_route rq w :
  AuthenticatedRoute rq ->
  Rejected lib (db w) rq ->
  exists line, app lib logging rq w = (access_denied, print line w).
Proof.
  intros [Hm Hp | Hm Hp | id Hm Hp | id Hm Hp] Hr;
    rewrite (app_mounted lib logging _ w _ Hp).
  - rewrite (router_get_users lib _ w Hm).
    destruct (refused_stack get_users (mkReq rq [] None []) w Hr)
      as [line E].
    exists line. now rewrite E.
  - rewrite (router_post_courses lib _ w Hm).
    edestruct (refused_stack (post_courses lib)) as [line E];
      [|exists line; rewrite E; reflexivity]. exact Hr.
  - rewrite (router_put_course lib _ _ w Hm).
    edestruct (refused_stack (put_course lib)) as [line E];
      [|exists line; rewrite E; reflexivity]. exact Hr.
  - rewrite (router_delete_course lib _ _ w Hm).
    edestruct (refused_stack (delete_course lib)) as [line E];
      [|exists line; rewrite E; reflexivity]. exact Hr.
Qed.

End Refusal.

(** C1. On each of the four authenticated routes, a request whose
    authentication is refused, whether the Authorization header is absent,
    no stored user has the presented address, or the secret does not match
    the stored hash, is answered 401 with the body
    [{ message: Access Denied }]. The response is the same constant for
    the three reasons; the reason only goes to the console, and the store
    is left as it was. *)
Theorem access_denied_is_uniform lib logging rq w :
  AuthenticatedRoute rq ->
  Rejected lib (db w) rq ->
  fst (app lib logging rq w) =
    mkResponse 401 None (Some (JObj [("message", JStr "Access Denied")])) /\
  db (snd (app lib logging rq w)) = db w /\
  exists reason, console (snd (app lib logging rq w)) = console w ++ [reason].
Proof.
  intros Hroute Hrej.
  destruct (refused_on_route lib logging rq w Hroute Hrej) as [line E].
  rewrite E. simpl. repeat split. now exists line.
Qed.

Lemma access_denied_is_uniform_witness :
  let rq := mkRequest DELETE ["api"; "courses"; "1"]
              (Some (mkCredentials "ann@x.com" "wrong")) [] in
  AuthenticatedRoute rq /\
  Rejected Reference.library (db Sample.world) rq /\
  fst (app Reference.library false rq Sample.world) =
    mkResponse 401 None (Some (JObj [("message", JStr "Access Denied")])).
Proof.
  intros rq.
  assert (Hroute : AuthenticatedRoute rq)
    by (apply DELETE_course with (id := "1"); reflexivity).
  assert (Hrej : Rejected Reference.library (db Sample.world) rq)
    by (apply password_mismatch with
          (c := mkCredentials "ann@x.com" "wrong") (u := Sample.ann);
        reflexivity).
  exact (conj Hroute (conj Hrej
           (proj1 (access_denied_is_uniform Reference.library false rq
                     Sample.world Hroute Hrej)))).
Defined.

(** ** Ownership checks on PUT and DELETE *)

Section Ownership.

Variable lib : Library.
Variable logging : bool.

Lemma passes_rules rules b :
  rule_fails lib rules b = false -> run_rules lib rules b = [].
Proof.
  rewrite rule_fails_run_rules.
  destruct (run_rules lib rules b); [reflexivity | discriminate].
Qed.

(** The request object the last handler of an authenticated route with
    an id parameter receives. *)
Lemma guarded_stack (h : Req -> M Response) rq id errs w u :
  authenticates lib (db w) rq u ->
  run_stack [authenticateUser lib; asyncHandler h]
            (record_errors (mkReq rq [("id", id)] None []) errs) w =
  run_stack [asyncHandler h]
            (mkReq rq [("id", id)] (Some u) errs)
            (print ("Authentication successful for emailAdress: "
                    ++ emailAddress u)%string w).
Proof.
  intros Ha. simpl.
  rewrite (authenticateUser_accepts lib _ w u) by exact Ha.
  reflexivity.
Qed.

Lemma put_course_run rq id w u :
  method rq = PUT ->
  path rq = ["api"; "courses"; id] ->
  rule_fails lib course_update_rules (body rq) = false ->
  authenticates lib (db w) rq u ->
  app lib logging rq w =
  settle lib logging
    (run_stack [asyncHandler (put_course lib)]
       (mkReq rq [("id", id)] (Some u) [])
       (print ("Authentication successful for emailAdress: "
               ++ emailAddress u)%string w)).
Proof.
  intros Hm Hp Hv Ha.
  rewrite (app_mounted lib logging rq w _ Hp).
  rewrite (router_put_course lib id rq w Hm).
  rewrite (passes_rules _ _ Hv).
  now rewrite (guarded_stack _ rq id [] w u Ha).
Qed.

Lemma delete_course_run rq id w u :
  method rq = DELETE ->
  path rq = ["api"; "courses"; id] ->
  authenticates lib (db w) rq u ->
  app lib logging rq w =
  settle lib logging
    (run_stack [asyncHandler (delete_course lib)]
       (mkReq rq [("id", id)] (Some u) [])
       (print ("Authentication successful for emailAdress: "
               ++ emailAddress u)%string w)).
Proof.
  intros Hm Hp Ha.
  rewrite (app_mounted lib logging rq w _ Hp).
  rewrite (router_delete_course lib id rq w Hm).
  rewrite <- (record_errors_nil (mkReq rq [("id", id)] None [])).
  now rewrite (guarded_stack _ rq id [] w u Ha).
Qed.

End Ownership.

(** C2. PUT (with a body that passes the title and description rules) or
    DELETE on an existing course by an authenticated caller whose id differs
    from the userId stored in the course is answered 403, and the store,
    hence every field of the course and the row itself, is left as it
    was. *)
Theorem non_owner_is_forbidden lib logging rq id w u c :
  (method rq = PUT /\ rule_fails lib course_update_rules (body rq) = false)
  \/ method rq = DELETE ->
  path rq = ["api"; "courses"; id] ->
  authenticates lib (db w) rq u ->
  row_with_pk lib (db w) (Some id) = Some c ->
  userId c <> user_id u ->
  fst (app lib logging rq w) =
    mkResponse 403 None (Some (JStr "User has no course")) /\
  db (snd (app lib logging rq w)) = db w /\
  row_with_pk lib (db (snd (app lib logging rq w))) (Some id) = Some c.
Proof.
  intros Hm Hp Ha Hc Hne.
  assert (Hc' := Hc). unfold row_with_pk in Hc'.
  apply Z.eqb_neq in Hne.
  assert (E : app lib logging rq w =
              (mkResponse 403 None (Some (JStr "User has no course")),
               print ("Authentication successful for emailAdress: "
                      ++ emailAddress u)%string w)).
  { destruct Hm as [[Hm Hv] | Hm].
    - rewrite (put_course_run lib logging rq id w u Hm Hp Hv Ha).
      simpl. unfold asyncHandler, put_course, bind, Course_findByPk. simpl.
      rewrite Hc', Hne. reflexivity.
    - rewrite (delete_course_run lib logging rq id w u Hm Hp Ha).
      simpl. unfold asyncHandler, delete_course, bind, Course_findByPk. simpl.
      rewrite Hc', Hne. reflexivity. }
  rewrite E. simpl. auto.
Qed.

Lemma non_owner_is_forbidden_witness :
  let rq := mkRequest PUT ["api"; "courses"; "1"] Sample.as_bob
              Sample.course_body in
  authenticates Reference.library (db Sample.world) rq Sample.bob /\
  userId Sample.intro <> user_id Sample.bob /\
  fst (app Reference.library false rq Sample.world) =
    mkResponse 403 None (Some (JStr "User has no course")) /\
  db (snd (app Reference.library false rq Sample.world)) = db Sample.world.
Proof.
  intros rq.
  assert (Ha : authenticates Reference.library (db Sample.world) rq Sample.bob)
    by (exists (mkCredentials "bob@x.com" "hunter2"); repeat split).
  assert (Hne : userId Sample.intro <> user_id Sample.bob)
    by (simpl; lia).
  pose proof (non_owner_is_forbidden Reference.library false rq "1"
                Sample.world Sample.bob Sample.intro
                (or_introl (conj eq_refl eq_refl)) eq_refl Ha eq_refl Hne)
    as H.
  exact (conj Ha (conj Hne (conj (proj1 H) (proj1 (proj2 H))))).
Defined.

(** C7. PUT (authenticated, with a body that passes the rules) or DELETE
    (authenticated) on an id that denotes no stored course fails while
    reading the userId of the absent course: the error reaches the global
    error handler, which answers 500; the answer is neither 404 nor 403
    nor 204, and the store is left as it was. *)
Theorem missing_course_is_a_server_error lib logging rq id w u :
  (method rq = PUT /\ rule_fails lib course_update_rules (body rq) = false)
  \/ method rq = DELETE ->
  path rq = ["api"; "courses"; id] ->
  authenticates lib (db w) rq u ->
  row_with_pk lib (db w) (Some id) = None ->
  fst (app lib logging rq w) =
    mkResponse 500 None
      (Some (JObj [("error",
                    JObj [("message",
                           JStr (describe lib (TypeError "userId")))])])) /\
  db (snd (app lib logging rq w)) = db w.
Proof.
  intros Hm Hp Ha Hc. unfold row_with_pk in Hc.
  destruct Hm as [[Hm Hv] | Hm].
  - rewrite (put_course_run lib logging rq id w u Hm Hp Hv Ha).
    simpl. unfold asyncHandler, put_course, bind, Course_findByPk. simpl.
    rewrite Hc. simpl. unfold errorHandler.
    destruct logging; simpl; auto.
  - rewrite (delete_course_run lib logging rq id w u Hm Hp Ha).
    simpl. unfold asyncHandler, delete_course, bind, Course_findByPk. simpl.
    rewrite Hc. simpl. unfold errorHandler.
    destruct logging; simpl; auto.
Qed.

Lemma missing_course_is_a_server_error_witness :
  let rq := mkRequest DELETE ["api"; "courses"; "7"] Sample.as_ann [] in
  authenticates Reference.library (db Sample.world) rq Sample.ann /\
  row_with_pk Reference.library (db Sample.world) (Some "7") = None /\
  status (fst (app Reference.library false rq Sample.world)) = 500.
Proof.
  intros rq.
  assert (Ha : authenticates Reference.library (db Sample.world) rq Sample.ann)
    by (exists (mkCredentials "ann@x.com" "secret1"); repeat split).
  pose proof (missing_course_is_a_server_error Reference.library false rq "7"
                Sample.world Sample.ann (or_intror eq_refl) eq_refl Ha
                eq_refl) as H.
  exact (conj Ha (conj eq_refl (f_equal status (proj1 H)))).
Defined.

(** ** Properties of every response *)

Section Invariant.

Variable lib : Library.
Variable logging : bool.
Variable P : Response -> Prop.
Variable Q : Exception -> Prop.

Lemma run_stack_sound ms :
  Forall (sound P Q) ms ->
  forall req w,
    match fst (run_stack ms req w) with
    | Sent r => P r
    | Failed e => Q e
    | Passed _ => True
    end.
Proof.
  induction 1 as [|m ms Hm _ IH]; intros req w; simpl; [exact I|].
  specialize (Hm req w).
  destruct (m req w) as [[req1|res|err] w1]; simpl in *;
    [apply IH | exact Hm | exact Hm].
Qed.

Lemma dispatch_sound rs :
  Forall (fun r => Forall (sound P Q) (stack r)) rs ->
  forall p req w,
    match fst (dispatch rs p req w) with
    | Sent r => P r
    | Failed e => Q e
    | Passed _ => True
    end.
Proof.
  induction 1 as [|r rs Hr _ IH]; intros p req w; simpl; [exact I|].
  destruct (Method_eqb (route_method r) (method (request req))); [|apply IH].
  destruct (match_path (route_path r) p) as [ps|]; [|apply IH].
  pose proof (run_stack_sound (stack r) Hr
                (mkReq (request req) ps (currentUser req)
                       (validationErrors req)) w) as H.
  destruct (run_stack (stack r) _ w) as [[res|err|req'] w']; simpl in *;
    [exact H | exact H | apply IH].
Qed.

Lemma asyncHandler_sound (cb : Req -> M Response) :
  (forall req, ensures (cb req) P Q) ->
  sound P Q (asyncHandler cb).
Proof.
  intros H req w. specialize (H req w). unfold asyncHandler.
  destruct (cb req w) as [[res|err] w']; exact H.
Qed.

Lemma validate_sound c : sound P Q (validate lib c).
Proof. intros req w. exact I. Qed.

Lemma authenticateUser_sound :
  P access_denied -> sound P Q (authenticateUser lib).
Proof.
  intros H req w.
  destruct (authenticates_or_rejected lib (db w) (request req)) as [[u Ha]|Hr].
  - now rewrite (authenticateUser_accepts lib req w u Ha).
  - destruct (authenticateUser_rejects lib req w Hr) as [line E].
    now rewrite E.
Qed.

(** A property of the greeting, of the 401 answer, of what the handlers
    send and of what the error handler renders holds of every response. *)
Lemma app_sound :
  P greeting ->
  P access_denied ->
  Q routeNotFound ->
  (forall e w, Q e -> P (fst (errorHandler lib logging e w))) ->
  (forall h, In h [get_users; post_users lib; get_courses; get_course lib;
                   post_courses lib; put_course lib; delete_course lib] ->
             forall req, ensures (h req) P Q) ->
  forall rq w, P (fst (app lib logging rq w)).
Proof.
  intros Hgreet Hdenied Hnf Herr Hh rq w.
  assert (Hroutes : Forall (fun r => Forall (sound P Q) (stack r))
                           (routes lib)).
  { unfold routes.
    repeat (apply Forall_cons || apply Forall_nil); simpl;
      repeat (apply Forall_cons || apply Forall_nil);
      try apply validate_sound;
      try (apply authenticateUser_sound; exact Hdenied);
      apply asyncHandler_sound; apply Hh; simpl; tauto. }
  assert (Hsettle : forall p, P (fst (settle lib logging (router lib p rq w)))).
  { intros p. unfold router.
    pose proof (dispatch_sound (routes lib) Hroutes p (mkReq rq [] None []) w) as H.
    destruct (dispatch (routes lib) p _ w) as [[res|err|req'] w']; simpl in *.
    - exact H.
    - exact (Herr err w' H).
    - exact (Herr routeNotFound w' Hnf). }
  assert (Hrest : P (fst match mounted_at "api" (path rq) with
                         | Some p => settle lib logging (router lib p rq w)
                         | None => errorHandler lib logging routeNotFound w
                         end)).
  { destruct (mounted_at "api" (path rq));
      [apply Hsettle | exact (Herr routeNotFound w Hnf)]. }
  unfold app.
  destruct (method rq); try exact Hrest.
  destruct (path rq); [exact Hgreet | exact Hrest].
Qed.

End Invariant.

(** ** Property names inside the bodies *)

Lemma no_key_in_strings k msgs :
  existsb (has_key k) (map JStr msgs) = false.
Proof. induction msgs; simpl; auto. Qed.

Lemma no_password_in_course row :
  has_key "password" (course_json row) = false.
Proof.
  destruct row as [c [u|]];
    destruct (estimatedTime c) eqn:E1, (materialsNeeded c) eqn:E2;
    unfold course_json; rewrite E1, E2; reflexivity.
Qed.

Lemma no_password_in_courses rows :
  existsb (has_key "password") (map course_json rows) = false.
Proof.
  induction rows as [|row rows IH]; simpl map; simpl existsb;
    [reflexivity|].
  now rewrite no_password_in_course, IH.
Qed.

(** ** What each handler sends or throws *)

Section Handlers.

Variable lib : Library.

Lemma ensures_ret {A} (a : A) (PA : A -> Prop) Q :
  PA a -> ensures (ret a) PA Q.
Proof. intros H w. exact H. Qed.

Lemma ensures_throw {A} e (PA : A -> Prop) (Q : Exception -> Prop) :
  Q e -> ensures (throw e) PA Q.
Proof. intros H w. exact H. Qed.

Lemma ensures_bind {A B} (c : M A) (k : A -> M B) PA PB Q :
  ensures c PA Q ->
  (forall a, PA a -> ensures (k a) PB Q) ->
  ensures (bind c k) PB Q.
Proof.
  intros Hc Hk w. unfold bind. specialize (Hc w).
  destruct (c w) as [[a|e] w']; simpl in *; [now apply Hk | exact Hc].
Qed.

Lemma hashSync_throws_plain s :
  ensures (bcryptjs_hashSync lib s) (fun _ => True) no_status.
Proof.
  intros w. unfold bcryptjs_hashSync.
  destruct s as [[| | | | |]|]; simpl; auto; reflexivity.
Qed.

Lemma User_create_throws_plain fn ln em pw :
  ensures (User_create lib fn ln em pw) (fun _ => True) no_status.
Proof.
  intros w. unfold User_create.
  destruct (textAttr lib fn), (textAttr lib ln), (emailAttr lib em);
    try reflexivity.
  destruct (existsb _ _); simpl; [reflexivity | exact I].
Qed.

Lemma Course_create_throws_plain t d et mn uid :
  ensures (Course_create lib t d et mn uid) (fun _ => True) no_status.
Proof.
  intros w. unfold Course_create.
  destruct (textAttr lib t), (textAttr lib d), (optTextAttr lib et),
    (optTextAttr lib mn), (intAttr lib uid); try reflexivity.
  destruct (existsb _ _); simpl; [exact I | reflexivity].
Qed.

Lemma Course_update_throws_plain t d et mn id :
  ensures (Course_update lib t d et mn id) (fun _ => True) no_status.
Proof.
  intros w. unfold Course_update.
  destruct (is_refused _ _ ++ _); simpl; [exact I | reflexivity].
Qed.

Lemma Course_destroy_returns id :
  ensures (Course_destroy lib id) (fun _ => True) no_status.
Proof. intros w. exact I. Qed.

Lemma errors_not_empty (msgs : list string) :
  isEmpty msgs = false -> msgs <> [].
Proof. now destruct msgs. Qed.

Lemma handlers_answer h :
  In h [get_users; post_users lib; get_courses; get_course lib;
        post_courses lib; put_course lib; delete_course lib] ->
  forall req, ensures (h req) Answer no_status.
Proof.
  simpl. intros [<-|[<-|[<-|[<-|[<-|[<-|[<-|[]]]]]]]] req.
  - unfold get_users. destruct (currentUser req).
    + apply ensures_ret. apply answers_user.
    + now apply ensures_throw.
  - unfold post_users. destruct (isEmpty (validationResult req)) eqn:E; simpl.
    + eapply ensures_bind; [apply hashSync_throws_plain|]. intros pw _.
      eapply ensures_bind; [apply User_create_throws_plain|]. intros u _.
      apply ensures_ret. apply answers_created.
    + apply ensures_ret. apply answers_errors. now apply errors_not_empty.
  - intros w. apply answers_courses.
  - intros w. unfold get_course, bind, Course_findByPk_owner, bind; simpl.
    destruct (row_with_pk lib (db w) (param req "id")) as [c|]; simpl;
      [apply (answers_course (c, owner_of (db w) c))
      | apply answers_no_course].
  - unfold post_courses. destruct (isEmpty (validationResult req)) eqn:E; simpl.
    + eapply ensures_bind; [apply Course_create_throws_plain|]. intros c _.
      apply ensures_ret. apply answers_created.
    + apply ensures_ret. apply answers_errors. now apply errors_not_empty.
  - unfold put_course. destruct (isEmpty (validationResult req)) eqn:E; simpl.
    + eapply ensures_bind with (PA := fun _ => True); [intros w; exact I|].
      intros [c|] _; [|now apply ensures_throw].
      destruct (currentUser req) as [u|]; [|now apply ensures_throw].
      destruct (userId c =? user_id u).
      * eapply ensures_bind; [apply Course_update_throws_plain|]. intros _ _.
        apply ensures_ret. apply answers_no_content.
      * apply ensures_ret. apply answers_forbidden.
    + apply ensures_ret. apply answers_errors. now apply errors_not_empty.
  - unfold delete_course.
    eapply ensures_bind with (PA := fun _ => True); [intros w; exact I|].
    intros [c|] _; [|now apply ensures_throw].
    destruct (currentUser req) as [u|]; [|now apply ensures_throw].
    destruct (userId c =? user_id u).
    + eapply ensures_bind; [apply Course_destroy_returns|]. intros _ _.
      apply ensures_ret. apply answers_no_content.
    + apply ensures_ret. apply answers_forbidden.
Qed.

End Handlers.

(** Every response of the application is one of the listed answers. *)
Lemma app_answers lib logging rq w : Answer (fst (app lib logging rq w)).
Proof.
  apply app_sound with (Q := fun e => no_status e \/ e = routeNotFound).
  - apply answers_greeting.
  - apply answers_denied.
  - now right.
  - intros e w' [He | ->]; unfold errorHandler; simpl.
    + unfold no_status in He. rewrite He. apply answers_error.
    + apply answers_no_route.
  - intros h Hh req w'.
    pose proof (handlers_answer lib h Hh req w') as H.
    destruct (fst (h req w')); [exact H | now left].
Qed.

(** C6. No response body has a property named password, whatever the
    request. GET /users by an authenticated caller answers 200 with exactly
    the id, firstName, lastName and emailAddress of that user; a course
    with its owner, as GET /courses and GET /courses/:id send it, has no
    password property, the owner object being made of the same four
    properties. *)
Theorem password_is_never_sent lib logging rq w :
  hides_password (fst (app lib logging rq w)) /\
  (forall u,
      method rq = GET -> path rq = ["api"; "users"] ->
      authenticates lib (db w) rq u ->
      fst (app lib logging rq w) =
        mkResponse 200 None
          (Some (JObj [("id", JNum (user_id u));
                       ("firstName", JStr (firstName u));
                       ("lastName", JStr (lastName u));
                       ("emailAddress", JStr (emailAddress u))]))) /\
  (forall row, has_key "password" (course_json row) = false) /\
  (forall u, keys (user_json u) =
             Some ["id"; "firstName"; "lastName"; "emailAddress"]).
Proof.
  split; [|split; [|split]].
  - destruct (app_answers lib logging rq w); unfold hides_password; simpl;
      auto.
    + now rewrite no_key_in_strings.
    + apply no_password_in_courses.
    + now rewrite no_password_in_course.
  - intros u Hm Hp Ha.
    rewrite (app_mounted lib logging rq w _ Hp).
    rewrite (router_get_users lib rq w Hm). simpl.
    rewrite (authenticateUser_accepts lib (mkReq rq [] None []) w u Ha).
    reflexivity.
  - apply no_password_in_course.
  - reflexivity.
Qed.

Lemma password_is_never_sent_witness :
  let rq := mkRequest GET ["api"; "users"] Sample.as_ann [] in
  authenticates Reference.library (db Sample.world) rq Sample.ann /\
  fst (app Reference.library false rq Sample.world) =
    mkResponse 200 None
      (Some (JObj [("id", JNum 1); ("firstName", JStr "Ann");
                   ("lastName", JStr "Lee");
                   ("emailAddress", JStr "ann@x.com")])).
Proof.
  intros rq.
  assert (Ha : authenticates Reference.library (db Sample.world) rq Sample.ann)
    by (exists (mkCredentials "ann@x.com" "secret1"); repeat split).
  exact (conj Ha
           (proj1 (proj2 (password_is_never_sent Reference.library false rq
                            Sample.world))
                  Sample.ann eq_refl eq_refl Ha)).
Defined.

(** ** The body parser in front of the application *)

(** The server either hands the parsed request to the application or
    answers an error of the body parser through the global error
    handler. *)
Lemma server_cases lib logging inc w :
  (exists parsed,
      express_json (payload_in inc) = Ok parsed /\
      server lib logging inc w =
        app lib logging
          (mkRequest (in_method inc) (in_path inc) (in_authorization inc)
                     parsed) w) \/
  (exists fault,
      express_json (payload_in inc) = Throw (BodyParserError fault) /\
      server lib logging inc w =
        errorHandler lib logging (BodyParserError fault) w).
Proof.
  unfold server.
  destruct (payload_in inc) as [|[| | | | |]|fault]; simpl;
    try (left; eexists; split; reflexivity);
    right; eexists; split; reflexivity.
Qed.

Lemma parser_error_answer lib logging fault w :
  fst (errorHandler lib logging (BodyParserError fault) w) =
    mkResponse (fault_status fault) None
      (Some (JObj [("error",
                    JObj [("message",
                           JStr (describe lib (BodyParserError fault)))])])).
Proof. unfold errorHandler. now destruct logging, fault. Qed.




(** C10. On POST /courses and PUT /courses/:id the validation chains only
    record their messages; authentication is decided before the handler
    looks at them. A request whose authentication is refused is answered
    401 Access Denied whether or not its body passes the title and
    description rules, so never 400; and a 400 answer is only given to a
    caller who authenticated. *)
Theorem authentication_precedes_validation lib logging rq w :
  (method rq = POST /\ path rq = ["api"; "courses"]) \/
  (exists id, method rq = PUT /\ path rq = ["api"; "courses"; id]) ->
  (Rejected lib (db w) rq ->
   fst (app lib logging rq w) =
     mkResponse 401 None (Some (JObj [("message", JStr "Access Denied")])) /\
   status (fst (app lib logging rq w)) <> 400) /\
  (status (fst (app lib logging rq w)) = 400 ->
   exists u, authenticates lib (db w) rq u).
Proof.
  intros Hroute.
  assert (Hauth : AuthenticatedRoute rq).
  { destruct Hroute as [[Hm Hp] | (id & Hm & Hp)].
    - now apply POST_courses.
    - now apply PUT_course with (id := id). }
  assert (Hden : Rejected lib (db w) rq ->
                 fst (app lib logging rq w) = access_denied).
  { intros Hr.
    destruct (refused_on_route lib logging rq w Hauth Hr) as [line E].
    now rewrite E. }
  split.
  - intros Hr. rewrite (Hden Hr). split; [reflexivity | discriminate].
  - intros Hs.
    destruct (authenticates_or_rejected lib (db w) rq) as [Ha | Hr];
      [exact Ha|].
    rewrite (Hden Hr) in Hs. discriminate.
Qed.

Lemma authentication_precedes_validation_witness :
  let rq := mkRequest POST ["api"; "courses"] None [] in
  rule_fails Reference.library course_rules (body rq) = true /\
  Rejected Reference.library (db Sample.world) rq /\
  fst (app Reference.library false rq Sample.world) =
    mkResponse 401 None (Some (JObj [("message", JStr "Access Denied")])).
Proof.
  intros rq.
  assert (Hr : Rejected Reference.library (db Sample.world) rq)
    by (apply header_absent; reflexivity).
  exact (conj eq_refl (conj Hr
           (proj1 (proj1 (authentication_precedes_validation
                            Reference.library false rq Sample.world
                            (or_introl (conj eq_refl eq_refl))) Hr)))).
Defined.

(** ** Creating users *)

Section Users.

Variable lib : Library.
Variable logging : bool.

Lemma user_rules_messages b :
  run_rules lib user_rules b = user_messages lib b.
Proof.
  unfold run_rules, user_rules, user_messages, run_chain, when_fails; simpl.
  repeat rewrite app_nil_r. repeat rewrite <- app_assoc. reflexivity.
Qed.

Lemma post_users_run rq w :
  method rq = POST ->
  path rq = ["api"; "users"] ->
  app lib logging rq w =
  settle lib logging
    (run_stack [asyncHandler (post_users lib)]
       (mkReq rq [] None (user_messages lib (body rq))) w).
Proof.
  intros Hm Hp.
  rewrite (app_mounted lib logging rq w _ Hp).
  rewrite (router_post_users lib rq w Hm).
  now rewrite user_rules_messages.
Qed.

Lemma post_users_refuses rq w :
  method rq = POST ->
  path rq = ["api"; "users"] ->
  rule_fails lib user_rules (body rq) = true ->
  app lib logging rq w =
  (validation_failed (user_messages lib (body rq)), w).
Proof.
  intros Hm Hp Hv. rewrite (post_users_run rq w Hm Hp).
  rewrite rule_fails_run_rules, user_rules_messages in Hv.
  simpl. unfold asyncHandler, post_users. simpl.
  now rewrite Hv.
Qed.

(** Once the rules pass, the handler hashes the password and creates the
    user; an error of either step goes to the global error handler. *)
Lemma post_users_valid rq w :
  method rq = POST ->
  path rq = ["api"; "users"] ->
  rule_fails lib user_rules (body rq) = false ->
  app lib logging rq w =
  match bcryptjs_hashSync lib (prop (body rq) "password") w with
  | (Ok pw, w1) =>
      match User_create lib (prop (body rq) "firstName")
              (prop (body rq) "lastName") (prop (body rq) "emailAddress")
              pw w1 with
      | (Ok _, w2) => (location_status_end "/" 201, w2)
      | (Throw e, w2) => errorHandler lib logging e w2
      end
  | (Throw e, w1) => errorHandler lib logging e w1
  end.
Proof.
  intros Hm Hp Hv. rewrite (post_users_run rq w Hm Hp).
  rewrite rule_fails_run_rules, user_rules_messages in Hv.
  simpl. unfold asyncHandler, post_users. simpl. rewrite Hv. simpl.
  unfold bind.
  destruct (bcryptjs_hashSync lib (prop (body rq) "password") w)
    as [[pw|e] w1]; simpl; [|reflexivity].
  destruct (User_create lib _ _ _ pw w1) as [[u|e] w2]; reflexivity.
Qed.

Lemma hashSync_keeps_db s w :
  db (snd (bcryptjs_hashSync lib s w)) = db w.
Proof.
  unfold bcryptjs_hashSync. destruct s as [[| | | | |]|]; reflexivity.
Qed.

Lemma errorHandler_plain e w :
  no_status e ->
  fst (errorHandler lib logging e w) =
    mkResponse 500 None
      (Some (JObj [("error", JObj [("message", JStr (err_message lib e))])]))
  /\ db (snd (errorHandler lib logging e w)) = db w.
Proof.
  unfold no_status, errorHandler. intros ->.
  destruct logging; split; reflexivity.
Qed.

Lemma User_create_throws_keeps fn ln em pw w e w' :
  User_create lib fn ln em pw w = (Throw e, w') -> w' = w.
Proof.
  unfold User_create.
  destruct (textAttr lib fn), (textAttr lib ln), (emailAttr lib em);
    try (intros H; inversion H; reflexivity).
  destruct (existsb _ _); intros H; inversion H; reflexivity.
Qed.

Lemma stored_address_is_taken s u :
  In u (users s) ->
  existsb (fun u' => String.eqb (emailAddress u') (emailAddress u)) (users s)
  = true.
Proof.
  intros Hin. apply existsb_exists. exists u. split; [exact Hin|].
  apply String.eqb_refl.
Qed.

(** The insert is refused when the address is already stored. *)
Lemma User_create_duplicate fn ln pw w u :
  In u (users (db w)) ->
  exists e,
    User_create lib fn ln (Some (JStr (emailAddress u))) pw w = (Throw e, w)
    /\ no_status e /\
    (forall f l, textAttr lib fn = Some f -> textAttr lib ln = Some l ->
                 isEmail lib (Some (JStr (emailAddress u))) = true ->
                 e = SequelizeUniqueConstraintError
                       "Email address already in use!").
Proof.
  intros Hin. unfold User_create, emailAttr. simpl textAttr at 3.
  destruct (textAttr lib fn) as [f|], (textAttr lib ln) as [l|],
    (isEmail lib (Some (JStr (emailAddress u))));
    try rewrite (stored_address_is_taken (db w) u Hin);
    eexists; (split; [reflexivity|]); (split; [reflexivity|]);
    intros; congruence.
Qed.

Lemma user_rules_pass b :
  rule_fails lib user_rules b = false ->
  truthy (prop b "firstName") = true /\
  truthy (prop b "lastName") = true /\
  truthy (prop b "emailAddress") = true /\
  isEmail lib (prop b "emailAddress") = true /\
  truthy (prop b "password") = true.
Proof.
  rewrite rule_fails_run_rules, user_rules_messages.
  unfold user_messages, when_fails.
  destruct (truthy (prop b "firstName")), (truthy (prop b "lastName")),
    (truthy (prop b "emailAddress")), (isEmail lib (prop b "emailAddress")),
    (truthy (prop b "password")); simpl; intros H;
    try discriminate; auto.
Qed.

End Users.

(** C5, as the claim states it, fails: a body without any field has four
    missing fields, and the answer lists five messages, two of them for
    emailAddress. *)
Lemma two_messages_for_the_address :
  let rq := mkRequest POST ["api"; "users"] None [] in
  fst (app Reference.library false rq Sample.world) =
    mkResponse 400 None
      (Some (JObj [("errors",
         JArr [JStr ("Please provide  " ++ quoted "firstName")%string;
               JStr ("Please provide " ++ quoted "lastName")%string;
               JStr ("Please provide " ++ quoted "emailAddress")%string;
               JStr ("Please provide valid " ++ quoted "email address"
                     ++ " ")%string;
               JStr ("Please provide " ++ quoted "password")%string])])) /\
  failing_fields Reference.library user_rules (body rq) =
    ["firstName"; "lastName"; "emailAddress"; "password"].
Proof. split; reflexivity. Qed.

(** C5, amended. POST /users answers 400 exactly when a validator of the
    rules refuses the body, and the body of the answer is then the full
    list of the messages of the failing validators in the order of
    declaration: firstName, lastName, emailAddress presence, emailAddress
    format, password. The list has one message per failing validator, so a
    missing emailAddress contributes both of its messages. *)
Theorem post_users_lists_every_failure lib logging rq w :
  method rq = POST ->
  path rq = ["api"; "users"] ->
  (status (fst (app lib logging rq w)) = 400 <->
   rule_fails lib user_rules (body rq) = true) /\
  (rule_fails lib user_rules (body rq) = true ->
   fst (app lib logging rq w) =
     mkResponse 400 None
       (Some (JObj [("errors",
                     JArr (map JStr (user_messages lib (body rq))))])) /\
   snd (app lib logging rq w) = w).
Proof.
  intros Hm Hp.
  assert (Hfail : rule_fails lib user_rules (body rq) = true ->
                  app lib logging rq w =
                  (validation_failed (user_messages lib (body rq)), w))
    by (apply post_users_refuses; assumption).
  split; [split|].
  - intros Hs.
    destruct (rule_fails lib user_rules (body rq)) eqn:Hv; [reflexivity|].
    rewrite (post_users_valid lib logging rq w Hm Hp Hv) in Hs.
    pose proof (hashSync_throws_plain lib (prop (body rq) "password") w)
      as Hh.
    destruct (bcryptjs_hashSync lib _ w) as [[pw|e] w1]; simpl in Hh.
    + pose proof (User_create_throws_plain lib
                    (prop (body rq) "firstName") (prop (body rq) "lastName")
                    (prop (body rq) "emailAddress") pw w1) as Hu.
      destruct (User_create lib _ _ _ pw w1) as [[u|e] w2]; simpl in Hu.
      * discriminate.
      * rewrite (proj1 (errorHandler_plain lib logging e w2 Hu)) in Hs.
        discriminate.
    + rewrite (proj1 (errorHandler_plain lib logging e w1 Hh)) in Hs.
      discriminate.
  - intros Hv. now rewrite (Hfail Hv).
  - intros Hv. now rewrite (Hfail Hv).
Qed.

Lemma post_users_lists_every_failure_witness :
  let rq := mkRequest POST ["api"; "users"] None
              [("firstName", JStr "Ann"); ("emailAddress", JStr "ann")] in
  rule_fails Reference.library user_rules (body rq) = true /\
  fst (app Reference.library false rq Sample.world) =
    mkResponse 400 None
      (Some (JObj [("errors",
         JArr [JStr ("Please provide " ++ quoted "lastName")%string;
               JStr ("Please provide valid " ++ quoted "email address"
                     ++ " ")%string;
               JStr ("Please provide " ++ quoted "password")%string])])).
Proof.
  intros rq.
  exact (conj eq_refl
           (proj1 (proj2 (post_users_lists_every_failure Reference.library
                            false rq Sample.world eq_refl eq_refl)
                         eq_refl))).
Defined.

(** C4, as the claim states it, fails: creating a second user with the
    address of a stored one is answered 500 by the global error handler,
    not with a validation-style answer. *)
Lemma duplicate_address_is_a_server_error :
  let rq := mkRequest POST ["api"; "users"] None Sample.ann_body in
  rule_fails Reference.library user_rules (body rq) = false /\
  fst (app Reference.library false rq Sample.world) =
    mkResponse 500 None
      (Some (JObj [("error",
                    JObj [("message",
                           JStr "Email address already in use!")])])) /\
  db (snd (app Reference.library false rq Sample.world)) = db Sample.world.
Proof. repeat split. Qed.

(** C4, amended. A POST /users whose emailAddress is the address of a
    stored user creates nothing: the store is left as it was, so there is no
    second row and the first one is untouched. The answer is 400 with the
    validator messages when a rule fails and otherwise 500 from the global
    error handler; when the four fields are texts that pass the rules, the
    body of the 500 answer carries, under error, the message of the unique
    constraint, Email address already in use! *)
Theorem duplicate_address_creates_nothing lib logging rq w u :
  method rq = POST ->
  path rq = ["api"; "users"] ->
  In u (users (db w)) ->
  prop (body rq) "emailAddress" = Some (JStr (emailAddress u)) ->
  db (snd (app lib logging rq w)) = db w /\
  (rule_fails lib user_rules (body rq) = true ->
   status (fst (app lib logging rq w)) = 400) /\
  (rule_fails lib user_rules (body rq) = false ->
   status (fst (app lib logging rq w)) = 500 /\
   forall f l p,
     prop (body rq) "firstName" = Some (JStr f) ->
     prop (body rq) "lastName" = Some (JStr l) ->
     prop (body rq) "password" = Some (JStr p) ->
     fst (app lib logging rq w) =
       mkResponse 500 None
         (Some (JObj [("error",
                       JObj [("message",
                              JStr "Email address already in use!")])]))).
Proof.
  intros Hm Hp Hin He.
  destruct (rule_fails lib user_rules (body rq)) eqn:Hv.
  - rewrite (post_users_refuses lib logging rq w Hm Hp Hv).
    repeat split; intros; discriminate.
  - rewrite (post_users_valid lib logging rq w Hm Hp Hv).
    pose proof (hashSync_throws_plain lib (prop (body rq) "password") w)
      as Hh.
    pose proof (hashSync_keeps_db lib (prop (body rq) "password") w) as Hk.
    destruct (user_rules_pass lib (body rq) Hv) as (_ & _ & _ & Hmail & _).
    rewrite He in Hmail.
    destruct (bcryptjs_hashSync lib _ w) as [[pw|e] w1] eqn:Eh;
      simpl in Hh, Hk.
    + assert (Hin1 : In u (users (db w1))) by (rewrite Hk; exact Hin).
      rewrite He.
      destruct (User_create_duplicate lib
                  (prop (body rq) "firstName") (prop (body rq) "lastName")
                  pw w1 u Hin1) as (e & Ec & Hns & Hmsg).
      rewrite Ec.
      destruct (errorHandler_plain lib logging e w1 Hns) as [E1 E2].
      rewrite E1, E2. split; [exact Hk|].
      split; [intros; discriminate|]. intros _. split; [reflexivity|].
      intros f l p Hf Hl _.
      rewrite (Hmsg f l); [reflexivity | now rewrite Hf | now rewrite Hl
                           | exact Hmail].
    + destruct (errorHandler_plain lib logging e w1 Hh) as [E1 E2].
      rewrite E1, E2. split; [exact Hk|].
      split; [intros; discriminate|]. intros _. split; [reflexivity|].
      intros f l p _ _ Hpw. rewrite Hpw in Eh. discriminate.
Qed.

Lemma duplicate_address_creates_nothing_witness :
  let rq := mkRequest POST ["api"; "users"] None Sample.ann_body in
  In Sample.ann (users (db Sample.world)) /\
  db (snd (app Reference.library false rq Sample.world)) = db Sample.world /\
  status (fst (app Reference.library false rq Sample.world)) = 500.
Proof.
  intros rq.
  assert (Hin : In Sample.ann (users (db Sample.world)))
    by (left; reflexivity).
  pose proof (duplicate_address_creates_nothing Reference.library false rq
                Sample.world Sample.ann eq_refl eq_refl Hin eq_refl) as H.
  exact (conj Hin (conj (proj1 H)
                        (proj1 (proj2 (proj2 H) eq_refl)))).
Defined.

(** ** Creating courses *)

Section Courses.

Variable lib : Library.
Variable logging : bool.

(** Once the caller is authenticated and the rules pass, the handler
    creates the course from the values of the body. *)
Lemma post_courses_valid rq w u :
  method rq = POST ->
  path rq = ["api"; "courses"] ->
  authenticates lib (db w) rq u ->
  rule_fails lib course_rules (body rq) = false ->
  app lib logging rq w =
  match Course_create lib (prop (body rq) "title")
          (prop (body rq) "description") (prop (body rq) "estimatedTime")
          (prop (body rq) "materialsNeeded") (prop (body rq) "userId")
          (print ("Authentication successful for emailAdress: "
                  ++ emailAddress u)%string w) with
  | (Ok c, w') =>
      (location_status_end ("/courses/" ++ string_of_Z (course_id c))%string
                           201, w')
  | (Throw e, w') => errorHandler lib logging e w'
  end.
Proof.
  intros Hm Hp Ha Hv.
  rewrite (app_mounted lib logging rq w _ Hp).
  rewrite (router_post_courses lib rq w Hm).
  rewrite (passes_rules lib _ _ Hv), record_errors_nil. simpl.
  rewrite (authenticateUser_accepts lib (mkReq rq [] None []) w u Ha).
  unfold asyncHandler, post_courses. simpl. unfold bind.
  destruct (Course_create lib _ _ _ _ _ _) as [[c|e] w']; reflexivity.
Qed.

End Courses.

(** C8, as the claim states it, fails: an authenticated POST /courses
    whose body passes the title and description rules but carries no
    userId creates no course and is answered 500. *)
Lemma course_without_owner_is_refused :
  let rq := mkRequest POST ["api"; "courses"] Sample.as_ann
              Sample.course_body in
  authenticates Reference.library (db Sample.world) rq Sample.ann /\
  rule_fails Reference.library course_rules (body rq) = false /\
  status (fst (app Reference.library false rq Sample.world)) = 500 /\
  courses (db (snd (app Reference.library false rq Sample.world))) =
    courses (db Sample.world).
Proof.
  split; [|repeat split].
  exists (mkCredentials "ann@x.com" "secret1"). repeat split.
Qed.

(** C8, amended. For an authenticated POST /courses whose body passes the
    title and description rules: when the Course model accepts the values,
    which requires the userId of the payload to be present and to be the
    id of a stored user, a course is created whose userId is the one of
    the payload, whoever the authenticated caller is, and the answer is 201
    with no body and Location /courses/ followed by the id of the new
    course; when the payload has no userId the model accepts, or its userId
    is the id of no stored user, no course is created, the store is left as
    it was and the answer is 500. *)
Theorem course_owner_comes_from_payload lib logging rq w u :
  method rq = POST ->
  path rq = ["api"; "courses"] ->
  authenticates lib (db w) rq u ->
  rule_fails lib course_rules (body rq) = false ->
  (forall t d et mn o,
      textAttr lib (prop (body rq) "title") = Some t ->
      textAttr lib (prop (body rq) "description") = Some d ->
      optTextAttr lib (prop (body rq) "estimatedTime") = Some et ->
      optTextAttr lib (prop (body rq) "materialsNeeded") = Some mn ->
      intAttr lib (prop (body rq) "userId") = Some o ->
      existsb (fun u' => user_id u' =? o) (users (db w)) = true ->
      fst (app lib logging rq w) =
        mkResponse 201
          (Some ("/courses/" ++ string_of_Z (courseSeq (db w)))%string)
          None /\
      courses (db (snd (app lib logging rq w))) =
        courses (db w) ++ [mkCourse (courseSeq (db w)) t d et mn o] /\
      users (db (snd (app lib logging rq w))) = users (db w)) /\
  (intAttr lib (prop (body rq) "userId") = None ->
   status (fst (app lib logging rq w)) = 500 /\
   db (snd (app lib logging rq w)) = db w) /\
  (forall o,
      intAttr lib (prop (body rq) "userId") = Some o ->
      existsb (fun u' => user_id u' =? o) (users (db w)) = false ->
      status (fst (app lib logging rq w)) = 500 /\
      db (snd (app lib logging rq w)) = db w).
Proof.
  intros Hm Hp Ha Hv.
  rewrite (post_courses_valid lib logging rq w u Hm Hp Ha Hv).
  unfold Course_create. simpl db. split; [|split].
  - intros t d et mn o Ht Hd Het Hmn Ho Hex.
    rewrite Ht, Hd, Het, Hmn, Ho, Hex. simpl. auto.
  - intros Ho. rewrite Ho.
    destruct (textAttr lib (prop (body rq) "title")),
      (textAttr lib (prop (body rq) "description")),
      (optTextAttr lib (prop (body rq) "estimatedTime")),
      (optTextAttr lib (prop (body rq) "materialsNeeded"));
      unfold errorHandler; destruct logging; simpl; auto.
  - intros o Ho Hex. rewrite Ho, Hex.
    destruct (textAttr lib (prop (body rq) "title")),
      (textAttr lib (prop (body rq) "description")),
      (optTextAttr lib (prop (body rq) "estimatedTime")),
      (optTextAttr lib (prop (body rq) "materialsNeeded"));
      unfold errorHandler; destruct logging; simpl; auto.
Qed.

Lemma course_owner_comes_from_payload_witness :
  let rq := mkRequest POST ["api"; "courses"] Sample.as_bob
              (Sample.course_body ++ [("userId", JNum 1)]) in
  let dangling := mkRequest POST ["api"; "courses"] Sample.as_bob
                    (Sample.course_body ++ [("userId", JNum 99)]) in
  authenticates Reference.library (db Sample.world) rq Sample.bob /\
  fst (app Reference.library false rq Sample.world) =
    mkResponse 201 (Some "/courses/2") None /\
  courses (db (snd (app Reference.library false rq Sample.world))) =
    [Sample.intro; mkCourse 2 "Intro" "desc" None None 1] /\
  status (fst (app Reference.library false dangling Sample.world)) = 500 /\
  db (snd (app Reference.library false dangling Sample.world)) =
    db Sample.world.
Proof.
  intros rq dangling.
  assert (Ha : authenticates Reference.library (db Sample.world) rq Sample.bob)
    by (exists (mkCredentials "bob@x.com" "hunter2"); repeat split).
  assert (Hd : authenticates Reference.library (db Sample.world) dangling
                 Sample.bob)
    by (exists (mkCredentials "bob@x.com" "hunter2"); repeat split).
  pose proof (proj1 (course_owner_comes_from_payload Reference.library false
                       rq Sample.world Sample.bob eq_refl eq_refl Ha eq_refl)
                    "Intro" "desc" None None 1
                    eq_refl eq_refl eq_refl eq_refl eq_refl eq_refl)%string
    as H.
  pose proof (proj2 (proj2 (course_owner_comes_from_payload
                              Reference.library false dangling Sample.world
                              Sample.bob eq_refl eq_refl Hd eq_refl))
                    99 eq_refl eq_refl) as H'.
  exact (conj Ha (conj (proj1 H) (conj (proj1 (proj2 H)) H'))).
Defined.

(** ** The stored password *)

Section StoredPassword.

Variable lib : Library.
Variable logging : bool.

(** X14. POST /users with four texts that pass the rules and an address
    no stored user has answers 201 with Location / and no body, and adds one
    user under the next id whose password is the hash of the submitted text
    under a fresh salt, never the text itself handed to the store. *)
Lemma post_users_stores_the_hash rq w f l e p :
  method rq = POST ->
  path rq = ["api"; "users"] ->
  rule_fails lib user_rules (body rq) = false ->
  prop (body rq) "firstName" = Some (JStr f) ->
  prop (body rq) "lastName" = Some (JStr l) ->
  prop (body rq) "emailAddress" = Some (JStr e) ->
  prop (body rq) "password" = Some (JStr p) ->
  existsb (fun u => String.eqb (emailAddress u) e) (users (db w)) = false ->
  fst (app lib logging rq w) = mkResponse 201 (Some "/") None /\
  users (db (snd (app lib logging rq w))) =
    users (db w)
    ++ [mkUser (userSeq (db w)) f l e
               (hashSync lib (genSaltSync lib (entropy w)) p)].
Proof.
  intros Hm Hp Hv Hf Hl He Hpw Hfree.
  rewrite (post_users_valid lib logging rq w Hm Hp Hv).
  destruct (user_rules_pass lib (body rq) Hv) as (_ & _ & _ & Hmail & _).
  rewrite Hf, Hl, He, Hpw. rewrite He in Hmail.
  unfold bcryptjs_hashSync, User_create, emailAttr. simpl.
  rewrite Hmail, Hfree. simpl. auto.
Qed.

(** Who a request authenticates as once that row is stored: the new user,
    exactly when the library compares the presented secret equal to the
    stored hash. *)
Lemma new_user_authenticates s u c :
  existsb (fun u' => String.eqb (emailAddress u') (emailAddress u)) (users s)
    = false ->
  name c = emailAddress u ->
  let s' := mkStore (users s ++ [u]) (courses s) (userSeq s + 1)
                    (courseSeq s) in
  forall rq, authorization rq = Some c ->
    (authenticates lib s' rq u <->
     compareSync lib (pass c) (password u) = true).
Proof.
  intros Hfree Hn s' rq Hc.
  assert (Hfind : find (fun u' => String.eqb (emailAddress u') (name c))
                       (users s') = Some u).
  { simpl. rewrite Hn. clear Hc s'.
    induction (users s) as [|x xs IH]; simpl in *.
    - now rewrite String.eqb_refl.
    - apply orb_false_iff in Hfree. destruct Hfree as [Hx Hxs].
      rewrite Hx. now apply IH. }
  split.
  - intros (c' & Hc' & Hf' & Hp').
    rewrite Hc in Hc'. injection Hc' as <-. exact Hp'.
  - intros Hp. exists c. auto.
Qed.

End StoredPassword.

(** * Properties of the whole application *)

(** ** Where a request is taken *)

Section Dispatch.

Variable lib : Library.
Variable logging : bool.

Lemma dispatch_first_match rs p req w :
  (forall r, In r rs ->
     forall req0 w0 req' w', run_stack (stack r) req0 w0 <> (Passed req', w')) ->
  dispatch rs p req w =
  match first_match rs (method (request req)) p with
  | Some (r, ps) =>
      run_stack (stack r)
        (mkReq (request req) ps (currentUser req) (validationErrors req)) w
  | None => (Passed req, w)
  end.
Proof.
  intros Hsettle. induction rs as [|r rs IH]; simpl; [reflexivity|].
  assert (IH' := IH (fun r0 H => Hsettle r0 (or_intror H))). clear IH.
  destruct (Method_eqb (route_method r) (method (request req)));
    [|exact IH'].
  destruct (match_path (route_path r) p) as [ps|]; [|exact IH'].
  destruct (run_stack (stack r) _ w) as [[res|err|req'] w'] eqn:E;
    try reflexivity.
  exfalso. exact (Hsettle r (or_introl eq_refl) _ _ _ _ E).
Qed.

(** Every registered stack ends in an [asyncHandler], so a request that
    a route takes never reaches a later route. *)
Lemma routes_settle r :
  In r (routes lib) ->
  forall req w req' w', run_stack (stack r) req w <> (Passed req', w').
Proof.
  intros Hin req w req' w'. unfold routes in Hin. cbn [In] in Hin.
  destruct Hin as [<-|[<-|[<-|[<-|[<-|[<-|[<-|[]]]]]]]]; cbn [stack].
  - apply (run_stack_async_last [authenticateUser lib]).
  - apply run_stack_async_last.
  - apply (run_stack_async_last []).
  - apply (run_stack_async_last []).
  - change (map (validate lib) course_rules ++
            [authenticateUser lib; asyncHandler (post_courses lib)])
      with ((map (validate lib) course_rules ++ [authenticateUser lib]) ++
            [asyncHandler (post_courses lib)]).
    apply run_stack_async_last.
  - change (map (validate lib) course_update_rules ++
            [authenticateUser lib; asyncHandler (put_course lib)])
      with ((map (validate lib) course_update_rules ++ [authenticateUser lib])
            ++ [asyncHandler (put_course lib)]).
    apply run_stack_async_last.
  - apply (run_stack_async_last [authenticateUser lib]).
Qed.

Lemma router_first_match p rq w :
  router lib p rq w =
  match first_match (routes lib) (method rq) p with
  | Some (r, ps) => run_stack (stack r) (mkReq rq ps None []) w
  | None => (Passed (mkReq rq [] None []), w)
  end.
Proof.
  unfold router. rewrite dispatch_first_match by apply routes_settle.
  reflexivity.
Qed.

Lemma app_unrouted rq w :
  (method rq = GET -> path rq <> []) ->
  routed lib rq = false ->
  app lib logging rq w = errorHandler lib logging routeNotFound w.
Proof.
  intros Hg Hr. unfold app, routed in *.
  assert (E : match mounted_at "api" (path rq) with
              | Some p => settle lib logging (router lib p rq w)
              | None => errorHandler lib logging routeNotFound w
              end = errorHandler lib logging routeNotFound w).
  { destruct (mounted_at "api" (path rq)) as [p|]; [|reflexivity].
    rewrite router_first_match.
    destruct (first_match (routes lib) (method rq) p) as [[r ps]|];
      [discriminate | reflexivity]. }
  destruct (method rq); try exact E.
  destruct (path rq); [now destruct Hg | exact E].
Qed.

Lemma router_get_courses rq w :
  method rq = GET ->
  router lib ["courses"] rq w =
  run_stack [asyncHandler get_courses] (mkReq rq [] None []) w.
Proof. intros Hm. rewrite router_first_match, Hm. reflexivity. Qed.

Lemma router_get_course id rq w :
  method rq = GET ->
  router lib ["courses"; id] rq w =
  run_stack [asyncHandler (get_course lib)] (mkReq rq [("id", id)] None []) w.
Proof. intros Hm. rewrite router_first_match, Hm. reflexivity. Qed.

(** *** Spelling of the literal segments *)

Lemma lower_ascii_idem c : lower_ascii (lower_ascii c) = lower_ascii c.
Proof. destruct c as [[] [] [] [] [] [] [] []]; reflexivity. Qed.

Lemma lower_lower s : lower (lower s) = lower s.
Proof.
  induction s as [|c s IH]; simpl; [reflexivity|].
  now rewrite lower_ascii_idem, IH.
Qed.

Lemma same_text_true a b : same_text a b = true -> lower b = lower a.
Proof. unfold same_text. intros H. apply String.eqb_eq in H. now symmetry. Qed.

Lemma same_text_lower a b : lower b = lower a -> same_text a b = true.
Proof. unfold same_text. intros ->. apply String.eqb_refl. Qed.

Lemma same_text_canon t b : same_text t (lower b) = same_text t b.
Proof. unfold same_text. now rewrite lower_lower. Qed.

Lemma first_match_canon m p :
  first_match (routes lib) m (canon p) = first_match (routes lib) m p.
Proof.
  destruct p as [|b rest]; [reflexivity|]. cbn [canon]. unfold routes.
  cbn [first_match route_method route_path match_path].
  now rewrite !same_text_canon.
Qed.

Lemma router_canon p rq w :
  router lib (canon p) rq w = router lib p rq w.
Proof. now rewrite !router_first_match, first_match_canon. Qed.

(** The application below the mount point, whatever the case the
    prefix is written in. *)
Lemma app_below_mount rq w a p :
  path rq = a :: p ->
  lower a = "api" ->
  app lib logging rq w = settle lib logging (router lib (canon p) rq w).
Proof.
  intros Hp Ha. rewrite router_canon. unfold app. rewrite Hp.
  cbn [mounted_at].
  rewrite (same_text_lower "api" a) by (rewrite Ha; reflexivity).
  now destruct (method rq).
Qed.

Lemma at_get_users rq w a b :
  method rq = GET -> path rq = [a; b] ->
  lower a = "api" -> lower b = "users" ->
  app lib logging rq w =
  settle lib logging
    (run_stack [authenticateUser lib; asyncHandler get_users]
               (mkReq rq [] None []) w).
Proof.
  intros Hm Hp Ha Hb. rewrite (app_below_mount rq w a _ Hp Ha).
  cbn [canon]. rewrite Hb. now rewrite (router_get_users lib rq w Hm).
Qed.

Lemma at_post_users rq w a b :
  method rq = POST -> path rq = [a; b] ->
  lower a = "api" -> lower b = "users" ->
  app lib logging rq w =
  settle lib logging
    (run_stack [asyncHandler (post_users lib)]
       (record_errors (mkReq rq [] None [])
                      (run_rules lib user_rules (body rq))) w).
Proof.
  intros Hm Hp Ha Hb. rewrite (app_below_mount rq w a _ Hp Ha).
  cbn [canon]. rewrite Hb. now rewrite (router_post_users lib rq w Hm).
Qed.

Lemma at_get_courses rq w a b :
  method rq = GET -> path rq = [a; b] ->
  lower a = "api" -> lower b = "courses" ->
  app lib logging rq w =
  settle lib logging
    (run_stack [asyncHandler get_courses] (mkReq rq [] None []) w).
Proof.
  intros Hm Hp Ha Hb. rewrite (app_below_mount rq w a _ Hp Ha).
  cbn [canon]. rewrite Hb. now rewrite (router_get_courses rq w Hm).
Qed.

Lemma at_get_course rq w a b id :
  method rq = GET -> path rq = [a; b; id] ->
  lower a = "api" -> lower b = "courses" ->
  app lib logging rq w =
  settle lib logging
    (run_stack [asyncHandler (get_course lib)]
               (mkReq rq [("id", id)] None []) w).
Proof.
  intros Hm Hp Ha Hb. rewrite (app_below_mount rq w a _ Hp Ha).
  cbn [canon]. rewrite Hb. now rewrite (router_get_course id rq w Hm).
Qed.

Lemma at_post_courses rq w a b :
  method rq = POST -> path rq = [a; b] ->
  lower a = "api" -> lower b = "courses" ->
  app lib logging rq w =
  settle lib logging
    (run_stack [authenticateUser lib; asyncHandler (post_courses lib)]
       (record_errors (mkReq rq [] None [])
                      (run_rules lib course_rules (body rq))) w).
Proof.
  intros Hm Hp Ha Hb. rewrite (app_below_mount rq w a _ Hp Ha).
  cbn [canon]. rewrite Hb. now rewrite (router_post_courses lib rq w Hm).
Qed.

Lemma at_put_course rq w a b id :
  method rq = PUT -> path rq = [a; b; id] ->
  lower a = "api" -> lower b = "courses" ->
  app lib logging rq w =
  settle lib logging
    (run_stack [authenticateUser lib; asyncHandler (put_course lib)]
       (record_errors (mkReq rq [("id", id)] None [])
                      (run_rules lib course_update_rules (body rq))) w).
Proof.
  intros Hm Hp Ha Hb. rewrite (app_below_mount rq w a _ Hp Ha).
  cbn [canon]. rewrite Hb. now rewrite (router_put_course lib id rq w Hm).
Qed.

Lemma at_delete_course rq w a b id :
  method rq = DELETE -> path rq = [a; b; id] ->
  lower a = "api" -> lower b = "courses" ->
  app lib logging rq w =
  settle lib logging
    (run_stack [authenticateUser lib; asyncHandler (delete_course lib)]
               (mkReq rq [("id", id)] None []) w).
Proof.
  intros Hm Hp Ha Hb. rewrite (app_below_mount rq w a _ Hp Ha).
  cbn [canon]. rewrite Hb. now rewrite (router_delete_course lib id rq w Hm).
Qed.

Ltac no_route :=
  unfold routes;
  cbn [first_match route_method route_path Method_eqb match_path option_map];
  repeat match goal with
         | H : same_text _ _ = _ |- _ => rewrite H; clear H
         end;
  reflexivity.

(** A segment is spelled like at most one of the two literals. *)
Lemma users_or_courses b :
  same_text "users" b = true -> same_text "courses" b = false.
Proof.
  intros H. apply same_text_true in H. unfold same_text. now rewrite H.
Qed.

(** Every request is the greeting, one of the seven routes, or none. *)
Lemma routing_total rq : Routing lib rq.
Proof.
  destruct (path rq) as [|a p] eqn:Hp.
  { destruct (method rq) eqn:Hm;
      [now apply to_greeting | apply to_no_route ..];
      try (intros; congruence); unfold routed; now rewrite Hp. }
  destruct (same_text "api" a) eqn:Ha.
  2:{ apply to_no_route; [intros _; congruence|].
      unfold routed. rewrite Hp. cbn [mounted_at]. now rewrite Ha. }
  assert (Hno : first_match (routes lib) (method rq) p = None ->
                Routing lib rq).
  { intros H. apply to_no_route; [intros _; congruence|].
    unfold routed. rewrite Hp. cbn [mounted_at]. now rewrite Ha, H. }
  apply same_text_true in Ha. change (lower "api") with "api" in Ha.
  destruct p as [|b [|c [|d q]]].
  - apply Hno. destruct (method rq); no_route.
  - destruct (same_text "users" b) eqn:Eu.
    { pose proof (users_or_courses b Eu) as Ec.
      pose proof (same_text_true _ _ Eu) as Hb.
      change (lower "users") with "users" in Hb.
      destruct (method rq) eqn:Hm;
        [now apply to_get_users with (a := a) (b := b)
        | now apply to_post_users with (a := a) (b := b)
        | apply Hno; no_route ..]. }
    destruct (same_text "courses" b) eqn:Ec.
    { pose proof (same_text_true _ _ Ec) as Hb.
      change (lower "courses") with "courses" in Hb.
      destruct (method rq) eqn:Hm;
        [now apply to_get_courses with (a := a) (b := b)
        | now apply to_post_courses with (a := a) (b := b)
        | apply Hno; no_route ..]. }
    apply Hno. destruct (method rq); no_route.
  - destruct (same_text "courses" b) eqn:Ec.
    { pose proof (same_text_true _ _ Ec) as Hb.
      change (lower "courses") with "courses" in Hb.
      destruct (same_text "users" b) eqn:Eu;
        [apply users_or_courses in Eu; congruence|].
      destruct (method rq) eqn:Hm;
        [now apply to_get_course with (a := a) (b := b) (id := c)
        | apply Hno; no_route
        | now apply to_put_course with (a := a) (b := b) (id := c)
        | now apply to_delete_course with (a := a) (b := b) (id := c)]. }
    destruct (same_text "users" b) eqn:Eu;
      apply Hno; destruct (method rq); no_route.
  - destruct (same_text "courses" b) eqn:Ec,
      (same_text "users" b) eqn:Eu;
      apply Hno; destruct (method rq); no_route.
Qed.

End Dispatch.

(** ** What the router answers *)

Section RouterAnswers.

Variable lib : Library.
Variable logging : bool.

Lemma handlers_send h :
  In h [get_users; post_users lib; get_courses; get_course lib;
        post_courses lib; put_course lib; delete_course lib] ->
  forall req, ensures (h req) Sends no_status.
Proof.
  simpl. intros [<-|[<-|[<-|[<-|[<-|[<-|[<-|[]]]]]]]] req.
  - unfold get_users. destruct (currentUser req).
    + apply ensures_ret. apply sends_user.
    + now apply ensures_throw.
  - unfold post_users. destruct (isEmpty (validationResult req)) eqn:E; simpl.
    + eapply ensures_bind; [apply hashSync_throws_plain|]. intros pw _.
      eapply ensures_bind; [apply User_create_throws_plain|]. intros u _.
      apply ensures_ret. apply sends_created.
    + apply ensures_ret. apply sends_errors. now apply errors_not_empty.
  - intros w. apply sends_courses.
  - intros w. unfold get_course, bind, Course_findByPk_owner, bind; simpl.
    destruct (row_with_pk lib (db w) (param req "id")) as [c|]; simpl;
      [apply (sends_course (c, owner_of (db w) c)) | apply sends_no_course].
  - unfold post_courses. destruct (isEmpty (validationResult req)) eqn:E; simpl.
    + eapply ensures_bind; [apply Course_create_throws_plain|]. intros c _.
      apply ensures_ret. apply sends_created.
    + apply ensures_ret. apply sends_errors. now apply errors_not_empty.
  - unfold put_course. destruct (isEmpty (validationResult req)) eqn:E; simpl.
    + eapply ensures_bind with (PA := fun _ => True); [intros w; exact I|].
      intros [c|] _; [|now apply ensures_throw].
      destruct (currentUser req) as [u|]; [|now apply ensures_throw].
      destruct (userId c =? user_id u).
      * eapply ensures_bind; [apply Course_update_throws_plain|]. intros _ _.
        apply ensures_ret. apply sends_no_content.
      * apply ensures_ret. apply sends_forbidden.
    + apply ensures_ret. apply sends_errors. now apply errors_not_empty.
  - unfold delete_course.
    eapply ensures_bind with (PA := fun _ => True); [intros w; exact I|].
    intros [c|] _; [|now apply ensures_throw].
    destruct (currentUser req) as [u|]; [|now apply ensures_throw].
    destruct (userId c =? user_id u).
    + eapply ensures_bind; [apply Course_destroy_returns|]. intros _ _.
      apply ensures_ret. apply sends_no_content.
    + apply ensures_ret. apply sends_forbidden.
Qed.

Lemma first_match_In rs m p r ps :
  first_match rs m p = Some (r, ps) ->
  In r rs /\ Method_eqb (route_method r) m = true /\
  match_path (route_path r) p = Some ps.
Proof.
  induction rs as [|r0 rs IH]; simpl; [discriminate|].
  destruct (Method_eqb (route_method r0) m) eqn:Em.
  - destruct (match_path (route_path r0) p) as [ps0|] eqn:Ep.
    + intros H. injection H as <- <-. auto.
    + intros H. destruct (IH H) as (? & ? & ?). auto.
  - intros H. destruct (IH H) as (? & ? & ?). auto.
Qed.

(** The router answers with what a handler sends or with the 401 of
    [authenticateUser], hands over an error without a status, or passes
    when no route is registered for the request. *)
Lemma router_outcome p rq w :
  match fst (router lib p rq w) with
  | Sent r => Sends r \/ r = access_denied
  | Failed e => no_status e
  | Passed _ => first_match (routes lib) (method rq) p = None
  end.
Proof.
  assert (Hroutes : Forall (fun r => Forall
            (sound (fun r => Sends r \/ r = access_denied) no_status)
            (stack r)) (routes lib)).
  { assert (Hh : forall h,
              In h [get_users; post_users lib; get_courses; get_course lib;
                    post_courses lib; put_course lib; delete_course lib] ->
              forall req,
                ensures (h req) (fun r => Sends r \/ r = access_denied)
                        no_status).
    { intros h Hin req w0.
      pose proof (handlers_send h Hin req w0) as H.
      destruct (fst (h req w0)); [now left | exact H]. }
    unfold routes.
    repeat (apply Forall_cons || apply Forall_nil); simpl;
      repeat (apply Forall_cons || apply Forall_nil);
      try apply validate_sound;
      try (apply authenticateUser_sound; now right);
      apply asyncHandler_sound; apply Hh; simpl; tauto. }
  pose proof (dispatch_sound _ _ (routes lib) Hroutes p
                (mkReq rq [] None []) w) as H.
  fold (router lib p rq w) in H.
  destruct (router lib p rq w) as [[res|err|req'] w'] eqn:E;
    cbn [fst] in *; try exact H.
  rewrite router_first_match in E.
  destruct (first_match (routes lib) (method rq) p) as [[r ps]|] eqn:Ef;
    [|reflexivity].
  destruct (first_match_In _ _ _ _ _ Ef) as (Hin & _ & _).
  exfalso. exact (routes_settle lib r Hin _ _ _ _ E).
Qed.

End RouterAnswers.

(** For a request with a parsed body, the answer is the 404 of the
    application exactly when the request is not the greeting and no route is
    registered for it. *)
Lemma app_route_not_found_iff lib logging rq w :
  (fst (app lib logging rq w) = route_not_found <->
   routed lib rq = false /\ (method rq = GET -> path rq <> [])) /\
  (routed lib rq = false -> db (snd (app lib logging rq w)) = db w).
Proof.
  assert (Hun : (method rq = GET -> path rq <> []) ->
                routed lib rq = false ->
                app lib logging rq w =
                (route_not_found,
                 if logging
                 then print ("Global error handler: "
                             ++ stackOf lib routeNotFound)%string w
                 else w)).
  { intros Hg Hr. rewrite (app_unrouted lib logging rq w Hg Hr).
    unfold errorHandler. now destruct logging. }
  split; [split|].
  - intros Hres. unfold routed.
    unfold app in Hres.
    destruct (mounted_at "api" (path rq)) as [p|] eqn:Hp.
    + assert (Hs : fst (settle lib logging (router lib p rq w)) =
                   route_not_found ->
                   first_match (routes lib) (method rq) p = None).
      { pose proof (router_outcome lib p rq w) as Ho.
        destruct (router lib p rq w) as [[res|err|req'] w']; simpl in *.
        - intros ->. destruct Ho as [Ho | Ho]; inversion Ho.
        - unfold no_status in Ho. rewrite Ho. discriminate.
        - intros _. exact Ho. }
      destruct (method rq) eqn:Hm.
      * destruct (path rq) eqn:Hpath; [discriminate Hp|].
        rewrite (Hs Hres). split; [reflexivity | intros _; discriminate].
      * rewrite (Hs Hres). split; [reflexivity | discriminate].
      * rewrite (Hs Hres). split; [reflexivity | discriminate].
      * rewrite (Hs Hres). split; [reflexivity | discriminate].
    + split; [reflexivity|]. intros Hm Hpath.
      rewrite Hm, Hpath in Hres. discriminate.
  - intros [Hr Hg]. now rewrite (Hun Hg Hr).
  - intros Hr.
    destruct (method rq) eqn:Hm, (path rq) eqn:Hp;
      try (rewrite Hun; [now destruct logging | congruence | exact Hr]).
    unfold app. now rewrite Hm, Hp.
Qed.

(** The paths below are all served by the route registered as
    /courses under /api: the case of the letters does not matter. *)
Example spelling_of_the_path :
  let lib := Reference.library in
  fst (app lib false (mkRequest GET ["API"; "Courses"] None []) Sample.world)
  = fst (app lib false (mkRequest GET ["api"; "courses"] None [])
           Sample.world) /\
  status (fst (app lib false (mkRequest GET ["Api"; "COURSES"; "1"] None [])
                 Sample.world)) = 200 /\
  routed lib (mkRequest GET ["API"; "Courses"] None []) = true.
Proof. repeat split. Qed.

(** X1. The answer of the server is the 404 of the application, with the
    message Route Not Found nested under error, exactly when the body
    parser accepts the body, the request is not GET / and no route is
    registered for its method and path, literal segments being compared
    without regard to case; when no route is registered the store is left
    as it was. *)
Theorem route_not_found_iff_unrouted lib logging inc w :
  (fst (server lib logging inc w) = route_not_found <->
   (exists parsed, express_json (payload_in inc) = Ok parsed) /\
   routed lib (parsed_request inc []) = false /\
   (in_method inc = GET -> in_path inc <> [])) /\
  (routed lib (parsed_request inc []) = false ->
   db (snd (server lib logging inc w)) = db w).
Proof.
  destruct (server_cases lib logging inc w)
    as [(parsed & Hok & E) | (fault & Hno & E)]; rewrite E.
  - destruct (app_route_not_found_iff lib logging
                (parsed_request inc parsed) w) as [Hiff Hdb].
    split; [|exact Hdb]. split.
    + intros H. split; [now exists parsed|]. now apply Hiff.
    + intros (_ & Hr & Hg). apply Hiff. now split.
  - split.
    + rewrite parser_error_answer. split.
      * intros H. destruct fault; discriminate H.
      * intros ((parsed & Hok) & _). congruence.
    + intros _. unfold errorHandler. now destruct logging.
Qed.

Lemma route_not_found_iff_unrouted_witness :
  let inc := mkIncoming POST ["api"; "users"; "1"] Sample.as_ann NoJson in
  routed Reference.library (parsed_request inc []) = false /\
  fst (server Reference.library false inc Sample.world) = route_not_found /\
  db (snd (server Reference.library false inc Sample.world)) =
    db Sample.world.
Proof.
  intros inc.
  pose proof (route_not_found_iff_unrouted Reference.library false inc
                Sample.world) as H.
  assert (Hg : in_method inc = GET -> in_path inc <> [])
    by (intros _; discriminate).
  assert (Hok : exists parsed, express_json (payload_in inc) = Ok parsed)
    by (exists []; reflexivity).
  exact (conj eq_refl
           (conj (proj2 (proj1 H) (conj Hok (conj eq_refl Hg)))
                 (proj2 H eq_refl))).
Defined.

(** ** How the store changes *)

Section Frames.

Variable lib : Library.
Variable logging : bool.
Variable R : Store -> Store -> Prop.
Hypothesis R_refl : forall s, R s s.
Hypothesis R_trans : forall s1 s2 s3, R s1 s2 -> R s2 s3 -> R s1 s3.

Lemma run_stack_frames ms :
  Forall (frames R) ms ->
  forall req w, R (db w) (db (snd (run_stack ms req w))).
Proof.
  induction 1 as [|m ms Hm _ IH]; intros req w; simpl; [apply R_refl|].
  specialize (Hm req w).
  destruct (m req w) as [[req1|res|err] w1]; simpl in *;
    [eapply R_trans; [exact Hm | apply IH] | exact Hm | exact Hm].
Qed.

Lemma dispatch_frames rs :
  Forall (fun r => Forall (frames R) (stack r)) rs ->
  forall p req w, R (db w) (db (snd (dispatch rs p req w))).
Proof.
  induction 1 as [|r rs Hr _ IH]; intros p req w; simpl; [apply R_refl|].
  destruct (Method_eqb (route_method r) (method (request req))); [|apply IH].
  destruct (match_path (route_path r) p) as [ps|]; [|apply IH].
  pose proof (run_stack_frames (stack r) Hr
                (mkReq (request req) ps (currentUser req)
                       (validationErrors req)) w) as H.
  destruct (run_stack (stack r) _ w) as [[res|err|req'] w']; simpl in *;
    [exact H | exact H | eapply R_trans; [exact H | apply IH]].
Qed.

Lemma keeps_ret {A} (a : A) : keeps R (ret a).
Proof. intros w. apply R_refl. Qed.

Lemma keeps_throw {A} e : keeps R (@throw A e).
Proof. intros w. apply R_refl. Qed.

Lemma keeps_bind {A B} (c : M A) (k : A -> M B) :
  keeps R c -> (forall a, keeps R (k a)) -> keeps R (bind c k).
Proof.
  intros Hc Hk w. unfold bind. specialize (Hc w).
  destruct (c w) as [[a|e] w']; simpl in *; [|exact Hc].
  eapply R_trans; [exact Hc | apply Hk].
Qed.

Lemma asyncHandler_frames (cb : Req -> M Response) :
  (forall req, keeps R (cb req)) -> frames R (asyncHandler cb).
Proof.
  intros H req w. specialize (H req w). unfold asyncHandler.
  destruct (cb req w) as [[res|err] w']; exact H.
Qed.

Lemma authenticateUser_keeps_db req w :
  db (snd (authenticateUser lib req w)) = db w.
Proof.
  destruct (authenticates_or_rejected lib (db w) (request req)) as [[u Ha]|Hr].
  - now rewrite (authenticateUser_accepts lib req w u Ha).
  - destruct (authenticateUser_rejects lib req w Hr) as [line E].
    now rewrite E.
Qed.

Lemma errorHandler_keeps_db e w :
  db (snd (errorHandler lib logging e w)) = db w.
Proof. unfold errorHandler. now destruct logging. Qed.

Lemma settle_keeps_db o :
  db (snd (settle lib logging o)) = db (snd o).
Proof.
  destruct o as [[res|err|req] w]; simpl;
    [reflexivity | apply errorHandler_keeps_db ..].
Qed.

(** A relation on stores that the four writing operations of the models
    respect holds between the store before and after any request. *)
Lemma app_keeps :
  (forall fn ln em pw, keeps R (User_create lib fn ln em pw)) ->
  (forall t d et mn uid, keeps R (Course_create lib t d et mn uid)) ->
  (forall t d et mn id, keeps R (Course_update lib t d et mn id)) ->
  (forall id, keeps R (Course_destroy lib id)) ->
  forall rq w, R (db w) (db (snd (app lib logging rq w))).
Proof.
  intros Hu Hc Hup Hd rq w.
  assert (Hfind : forall id, keeps R (Course_findByPk lib id))
    by (intros id w0; apply R_refl).
  assert (Hhash : forall s, keeps R (bcryptjs_hashSync lib s)).
  { intros s w0. rewrite hashSync_keeps_db. apply R_refl. }
  assert (Hroutes : Forall (fun r => Forall (frames R) (stack r))
                           (routes lib)).
  { unfold routes.
    repeat (apply Forall_cons || apply Forall_nil); simpl;
      repeat (apply Forall_cons || apply Forall_nil);
      try (intros req w0; apply R_refl);
      try (intros req w0; rewrite authenticateUser_keeps_db; apply R_refl);
      apply asyncHandler_frames; intros req.
    - unfold get_users. destruct (currentUser req);
        [apply keeps_ret | apply keeps_throw].
    - unfold post_users. destruct (negb _); [apply keeps_ret|].
      apply keeps_bind; [apply Hhash|]. intros pw.
      apply keeps_bind; [apply Hu|]. intros _. apply keeps_ret.
    - intros w0. unfold get_course, bind, Course_findByPk_owner, bind. simpl.
      destruct (row_with_pk lib (db w0) (param req "id")); apply R_refl.
    - unfold post_courses. destruct (negb _); [apply keeps_ret|].
      apply keeps_bind; [apply Hc|]. intros c. apply keeps_ret.
    - unfold put_course. destruct (negb _); [apply keeps_ret|].
      apply keeps_bind; [apply Hfind|].
      intros [c|]; [|apply keeps_throw].
      destruct (currentUser req) as [u|]; [|apply keeps_throw].
      destruct (userId c =? user_id u); [|apply keeps_ret].
      apply keeps_bind; [apply Hup|]. intros _. apply keeps_ret.
    - unfold delete_course.
      apply keeps_bind; [apply Hfind|].
      intros [c|]; [|apply keeps_throw].
      destruct (currentUser req) as [u|]; [|apply keeps_throw].
      destruct (userId c =? user_id u); [|apply keeps_ret].
      apply keeps_bind; [apply Hd|]. intros _. apply keeps_ret. }
  assert (Hrest : R (db w)
            (db (snd match mounted_at "api" (path rq) with
                     | Some p => settle lib logging (router lib p rq w)
                     | None => errorHandler lib logging routeNotFound w
                     end))).
  { destruct (mounted_at "api" (path rq)) as [p|].
    - rewrite settle_keeps_db. apply (dispatch_frames (routes lib) Hroutes).
    - rewrite errorHandler_keeps_db. apply R_refl. }
  unfold app.
  destruct (method rq); try exact Hrest.
  destruct (path rq); [apply R_refl | exact Hrest].
Qed.

End Frames.

Section Evolution.

Variable lib : Library.
Variable logging : bool.

Lemma evolves_trans s1 s2 s3 :
  Evolves s1 s2 -> Evolves s2 s3 -> Evolves s1 s3.
Proof.
  intros H12 H23. induction H23 as [|s s' _ IH Ht]; [exact H12|].
  eapply evolves_step; eauto.
Qed.

Lemma evolves_one s s' : Transition s s' -> Evolves s s'.
Proof. intros H. eapply evolves_step; [apply evolves_refl | exact H]. Qed.

Lemma User_create_evolves fn ln em pw :
  keeps Evolves (User_create lib fn ln em pw).
Proof.
  intros w. unfold User_create.
  destruct (textAttr lib fn) as [f|], (textAttr lib ln) as [l|],
    (emailAttr lib em) as [e|]; try apply evolves_refl.
  destruct (existsb _ _) eqn:E; [apply evolves_refl|].
  simpl. apply evolves_one.
  apply (adds_user (db w) (mkUser (userSeq (db w)) f l e pw));
    [reflexivity | exact E].
Qed.

Lemma Course_create_evolves t d et mn uid :
  keeps Evolves (Course_create lib t d et mn uid).
Proof.
  intros w. unfold Course_create.
  destruct (textAttr lib t) as [t'|], (textAttr lib d) as [d'|],
    (optTextAttr lib et) as [et'|], (optTextAttr lib mn) as [mn'|],
    (intAttr lib uid) as [o|]; try apply evolves_refl.
  destruct (existsb _ _) eqn:E; [|apply evolves_refl].
  simpl. apply evolves_one.
  apply (adds_course (db w) (mkCourse (courseSeq (db w)) t' d' et' mn' o));
    [reflexivity | exact E].
Qed.

Lemma Course_update_evolves t d et mn id :
  keeps Evolves (Course_update lib t d et mn id).
Proof.
  intros w. unfold Course_update.
  destruct (is_refused _ _ ++ _); [|apply evolves_refl].
  simpl. apply evolves_one. apply rewrites_courses.
  intros c. destruct (match _ with Some _ => _ | None => false end);
    split; reflexivity.
Qed.

Lemma Course_destroy_evolves id :
  keeps Evolves (Course_destroy lib id).
Proof.
  intros w. unfold Course_destroy. simpl.
  apply evolves_one. apply removes_courses.
Qed.

(** Whatever the request, the store after it is reached from the store
    before it by elementary changes. *)
Lemma app_evolves rq w :
  Evolves (db w) (db (snd (app lib logging rq w))).
Proof.
  apply app_keeps.
  - apply evolves_refl.
  - apply evolves_trans.
  - apply User_create_evolves.
  - apply Course_create_evolves.
  - apply Course_update_evolves.
  - apply Course_destroy_evolves.
Qed.

End Evolution.

(** ** Invariants of the store *)

Section StoreInvariants.

Lemma NoDup_snoc {A} (l : list A) x :
  NoDup l -> ~ In x l -> NoDup (l ++ [x]).
Proof.
  intros Hl Hx. apply NoDup_app; [exact Hl | |].
  - constructor; [intros [] | constructor].
  - intros a Ha [<-|[]]. contradiction.
Qed.

Lemma NoDup_map_filter {A B} (f : A -> B) g (l : list A) :
  NoDup (map f l) -> NoDup (map f (filter g l)).
Proof.
  induction l as [|a l IH]; simpl; [auto|].
  intros H. inversion H as [|? ? Hn Hl]; subst.
  destruct (g a); simpl; [|auto].
  constructor; [|auto].
  intros Hin. apply Hn. apply in_map_iff in Hin.
  destruct Hin as (x & Hx & Hf). apply filter_In in Hf.
  apply in_map_iff. exists x. tauto.
Qed.

Lemma address_not_stored (l : list User) e :
  existsb (fun u => String.eqb (emailAddress u) e) l = false ->
  ~ In e (map emailAddress l).
Proof.
  intros H Hin. apply in_map_iff in Hin. destruct Hin as (u & <- & Hu).
  assert (existsb (fun u' => String.eqb (emailAddress u') (emailAddress u)) l
          = true).
  { apply existsb_exists. exists u. split; [exact Hu|].
    apply String.eqb_refl. }
  congruence.
Qed.

Lemma transition_unique_addresses s s' :
  Transition s s' -> unique_addresses s -> unique_addresses s'.
Proof.
  unfold unique_addresses. intros [u Hid Hfree | c _ _ | f _ | g] H; simpl;
    try exact H.
  rewrite map_app. simpl. apply NoDup_snoc; [exact H|].
  now apply address_not_stored.
Qed.

Lemma transition_owners_exist s s' :
  Transition s s' -> owners_exist s -> owners_exist s'.
Proof.
  unfold owners_exist.
  intros [u Hid Hfree | c Hid Hown | f Hf | g] H c' Hin; simpl in *.
  - destruct (H c' Hin) as (o & Ho & E). exists o. split; [|exact E].
    apply in_or_app. now left.
  - apply in_app_or in Hin. destruct Hin as [Hin | [<-|[]]].
    + exact (H c' Hin).
    + apply existsb_exists in Hown. destruct Hown as (o & Ho & E).
      exists o. split; [exact Ho|]. now apply Z.eqb_eq.
  - apply in_map_iff in Hin. destruct Hin as (c0 & <- & Hin).
    destruct (H c0 Hin) as (o & Ho & E). exists o. split; [exact Ho|].
    rewrite E. symmetry. apply Hf.
  - apply filter_In in Hin. exact (H c' (proj1 Hin)).
Qed.

Lemma id_not_stored {A} (key : A -> Z) (l : list A) n :
  (forall a, In a l -> key a < n) -> ~ In n (map key l).
Proof.
  intros H Hin. apply in_map_iff in Hin. destruct Hin as (a & E & Ha).
  specialize (H a Ha). lia.
Qed.

Lemma transition_fresh_ids s s' :
  Transition s s' -> fresh_ids s -> fresh_ids s'.
Proof.
  unfold fresh_ids.
  intros [u Hid Hfree | c Hid Hown | f Hf | g] (Hu & Hub & Hc & Hcb);
    simpl in *.
  - repeat split; try assumption.
    + rewrite map_app. simpl. apply NoDup_snoc; [exact Hu|].
      rewrite Hid. now apply id_not_stored.
    + intros u' Hin. apply in_app_or in Hin.
      destruct Hin as [Hin | [<-|[]]]; [specialize (Hub u' Hin)|]; lia.
  - repeat split; try assumption.
    + rewrite map_app. simpl. apply NoDup_snoc; [exact Hc|].
      rewrite Hid. now apply id_not_stored.
    + intros c' Hin. apply in_app_or in Hin.
      destruct Hin as [Hin | [<-|[]]]; [specialize (Hcb c' Hin)|]; lia.
  - repeat split; try assumption.
    + rewrite map_map.
      rewrite (map_ext (fun c => course_id (f c)) course_id);
        [exact Hc | intros c; apply Hf].
    + intros c' Hin. apply in_map_iff in Hin.
      destruct Hin as (c0 & <- & Hin).
      rewrite (proj1 (Hf c0)). now apply Hcb.
  - repeat split; try assumption.
    + now apply NoDup_map_filter.
    + intros c' Hin. apply filter_In in Hin. apply Hcb. tauto.
Qed.

Lemma evolves_invariant (Inv : Store -> Prop) :
  (forall s s', Transition s s' -> Inv s -> Inv s') ->
  forall s s', Evolves s s' -> Inv s -> Inv s'.
Proof.
  intros Hstep s s' H Hs. induction H as [|s1 s2 _ IH Ht]; [exact Hs|].
  eapply Hstep; eauto.
Qed.

Lemma evolves_users s s' :
  Evolves s s' -> exists new, users s' = users s ++ new.
Proof.
  induction 1 as [|s1 s2 _ [new IH] Ht].
  - exists []. now rewrite app_nil_r.
  - destruct Ht; simpl; try (exists new; exact IH).
    exists (new ++ [u]). now rewrite IH, app_assoc.
Qed.

Lemma evolves_owner_fixed s s' :
  Evolves s s' ->
  courseSeq s <= courseSeq s' /\
  forall c', In c' (courses s') -> course_id c' < courseSeq s ->
    exists c, In c (courses s) /\ course_id c = course_id c' /\
              userId c = userId c'.
Proof.
  induction 1 as [|s1 s2 _ [Hle IH] Ht].
  - split; [lia|]. intros c' Hin _. exists c'. auto.
  - destruct Ht as [u _ _ | c Hid _ | f Hf | g]; simpl in *.
    + split; assumption.
    + split; [lia|]. intros c' Hin Hlt.
      apply in_app_or in Hin. destruct Hin as [Hin | [<-|[]]];
        [now apply IH | lia].
    + split; [assumption|]. intros c' Hin Hlt.
      apply in_map_iff in Hin. destruct Hin as (c0 & <- & Hin).
      destruct (Hf c0) as [E1 E2]. rewrite E1 in Hlt.
      destruct (IH c0 Hin Hlt) as (c & Hc & Ei & Eo).
      exists c. rewrite E1, E2. auto.
    + split; [assumption|]. intros c' Hin Hlt.
      apply filter_In in Hin. now apply IH.
Qed.

End StoreInvariants.

(** X2. No request updates or deletes a user: the users stored after a
    request are the users stored before it, in the same order and with the
    same fields, followed by the users it added. *)
Theorem users_are_only_added lib logging rq w :
  exists new,
    users (db (snd (app lib logging rq w))) = users (db w) ++ new.
Proof. apply evolves_users. apply app_evolves. Qed.

(** X3. Addresses stay unique: when no two stored users share an
    emailAddress before a request, none do after it. *)
Theorem addresses_stay_unique lib logging rq w :
  unique_addresses (db w) ->
  unique_addresses (db (snd (app lib logging rq w))).
Proof.
  apply (evolves_invariant unique_addresses transition_unique_addresses).
  apply app_evolves.
Qed.

Lemma addresses_stay_unique_witness :
  let rq := mkRequest POST ["api"; "users"] None
              [("firstName", JStr "Cat"); ("lastName", JStr "Fox");
               ("emailAddress", JStr "cat@x.com");
               ("password", JStr "pass3")] in
  unique_addresses (db Sample.world) /\
  map emailAddress (users (db (snd (app Reference.library false rq
                                      Sample.world)))) =
    ["ann@x.com"; "bob@x.com"; "cat@x.com"] /\
  unique_addresses (db (snd (app Reference.library false rq Sample.world))).
Proof.
  intros rq.
  assert (H : unique_addresses (db Sample.world)).
  { unfold unique_addresses. simpl.
    repeat constructor; simpl; intuition discriminate. }
  exact (conj H (conj eq_refl
           (addresses_stay_unique Reference.library false rq Sample.world H))).
Defined.

(** X4. Every course keeps an existing owner: when the userId of every
    stored course is the id of a stored user before a request, the same
    holds after it. *)
Theorem owners_always_exist lib logging rq w :
  owners_exist (db w) ->
  owners_exist (db (snd (app lib logging rq w))).
Proof.
  apply (evolves_invariant owners_exist transition_owners_exist).
  apply app_evolves.
Qed.

Lemma owners_always_exist_witness :
  let rq := mkRequest POST ["api"; "courses"] Sample.as_ann
              (Sample.course_body ++ [("userId", JNum 2)]) in
  owners_exist (db Sample.world) /\
  map userId (courses (db (snd (app Reference.library false rq
                                  Sample.world)))) = [1; 2] /\
  owners_exist (db (snd (app Reference.library false rq Sample.world))).
Proof.
  intros rq.
  assert (H : owners_exist (db Sample.world)).
  { intros c [<-|[]]. exists Sample.ann. split; [now left | reflexivity]. }
  exact (conj H (conj eq_refl
           (owners_always_exist Reference.library false rq Sample.world H))).
Defined.

(** X5. Ids are never reused: when the ids of the users and of the
    courses are distinct and below the counters that assign the next ones
    before a request, the same holds after it. *)
Theorem ids_stay_fresh lib logging rq w :
  fresh_ids (db w) ->
  fresh_ids (db (snd (app lib logging rq w))).
Proof.
  apply (evolves_invariant fresh_ids transition_fresh_ids).
  apply app_evolves.
Qed.

Lemma ids_stay_fresh_witness :
  let rq := mkRequest DELETE ["api"; "courses"; "1"] Sample.as_ann [] in
  fresh_ids (db Sample.world) /\
  courseSeq (db (snd (app Reference.library false rq Sample.world))) = 2 /\
  fresh_ids (db (snd (app Reference.library false rq Sample.world))).
Proof.
  intros rq.
  assert (H : fresh_ids (db Sample.world)).
  { unfold fresh_ids. simpl. repeat split.
    - repeat constructor; simpl; intuition discriminate.
    - intros u [<-|[<-|[]]]; simpl; lia.
    - repeat constructor; simpl; intuition.
    - intros c [<-|[]]; simpl; lia. }
  exact (conj H (conj eq_refl
           (ids_stay_fresh Reference.library false rq Sample.world H))).
Defined.

(** X6. The owner of a course never changes: a course stored after a
    request under an id that had been assigned before the request was
    stored before it under that id with the same userId, and the counter of
    course ids never decreases. *)
Theorem owners_never_change lib logging rq w :
  courseSeq (db w) <= courseSeq (db (snd (app lib logging rq w))) /\
  forall c',
    In c' (courses (db (snd (app lib logging rq w)))) ->
    course_id c' < courseSeq (db w) ->
    exists c, In c (courses (db w)) /\ course_id c = course_id c' /\
              userId c = userId c'.
Proof. apply evolves_owner_fixed. apply app_evolves. Qed.

Lemma owners_never_change_witness :
  let rq := mkRequest PUT ["api"; "courses"; "1"] Sample.as_ann
              [("title", JStr "New"); ("description", JStr "text");
               ("userId", JNum 2)] in
  let c' := mkCourse 1 "New" "text" None None 1 in
  In c' (courses (db (snd (app Reference.library false rq Sample.world)))) /\
  exists c, In c (courses (db Sample.world)) /\
            course_id c = course_id c' /\ userId c = userId c'.
Proof.
  intros rq c'.
  assert (Hin : In c' (courses (db (snd (app Reference.library false rq
                                           Sample.world)))))
    by (left; reflexivity).
  assert (Hlt : course_id c' < courseSeq (db Sample.world))
    by (simpl; lia).
  exact (conj Hin
           (proj2 (owners_never_change Reference.library false rq
                     Sample.world) c' Hin Hlt)).
Defined.

(** ** Reading *)

Section Reading.

Variable lib : Library.
Variable logging : bool.

Lemma get_courses_run rq w :
  method rq = GET ->
  path rq = ["api"; "courses"] ->
  app lib logging rq w =
  (status_json 200
     (JArr (map (fun c => course_json (c, owner_of (db w) c))
                (courses (db w)))), w).
Proof.
  intros Hm Hp.
  rewrite (app_mounted lib logging rq w _ Hp).
  rewrite (router_get_courses lib rq w Hm). simpl.
  unfold asyncHandler, get_courses, bind, Course_findAll_owner. simpl.
  now rewrite map_map.
Qed.

Lemma get_course_run rq id w :
  method rq = GET ->
  path rq = ["api"; "courses"; id] ->
  app lib logging rq w =
  (match row_with_pk lib (db w) (Some id) with
   | Some c =>
       status_json 200
         (JObj [("course", course_json (c, owner_of (db w) c))])
   | None =>
       status_json 404 (JObj [("message", JStr "Course not exist")])
   end, w).
Proof.
  intros Hm Hp.
  rewrite (app_mounted lib logging rq w _ Hp).
  rewrite (router_get_course lib id rq w Hm). simpl.
  unfold asyncHandler, get_course, bind, Course_findByPk_owner, bind,
    Course_findByPk. simpl.
  destruct (match pkOf lib id with Some _ => _ | None => _ end);
    reflexivity.
Qed.

Lemma get_keeps_db rq w :
  method rq = GET -> db (snd (app lib logging rq w)) = db w.
Proof.
  intros Hm.
  destruct (routing_total lib rq)
    as [_ Hp | a b _ Hp Ha Hb | a b Hm' _ _ _ | a b _ Hp Ha Hb
        | a b id _ Hp Ha Hb | a b Hm' _ _ _ | a b id Hm' _ _ _
        | a b id Hm' _ _ _ | Hg Hr]; try congruence.
  - unfold app. now rewrite Hm, Hp.
  - rewrite (at_get_users lib logging rq w a b Hm Hp Ha Hb), settle_keeps_db.
    simpl.
    pose proof (authenticateUser_keeps_db lib (mkReq rq [] None []) w) as Hk.
    destruct (authenticateUser lib _ w) as [[req1|res|err] w1]; simpl in *;
      try exact Hk.
    unfold asyncHandler, get_users.
    destruct (currentUser req1); exact Hk.
  - rewrite (at_get_courses lib logging rq w a b Hm Hp Ha Hb),
      settle_keeps_db.
    reflexivity.
  - rewrite (at_get_course lib logging rq w a b id Hm Hp Ha Hb),
      settle_keeps_db.
    simpl. unfold asyncHandler, get_course, bind, Course_findByPk_owner, bind,
      Course_findByPk. simpl.
    destruct (match pkOf lib id with Some _ => _ | None => _ end);
      reflexivity.
  - rewrite (app_unrouted lib logging rq w Hg Hr).
    apply errorHandler_keeps_db.
Qed.

End Reading.

(** X7. GET /courses needs no credentials and always answers 200, also
    for an empty table, with an array of one object per stored course in the
    order of the table, each with the course fields and its owner; the world
    is left as it was. *)
Theorem get_courses_lists_every_course lib logging rq w :
  method rq = GET ->
  path rq = ["api"; "courses"] ->
  exists items,
    app lib logging rq w = (mkResponse 200 None (Some (JArr items)), w) /\
    items = map (fun c => course_json (c, owner_of (db w) c))
                (courses (db w)) /\
    List.length items = List.length (courses (db w)) /\
    (courses (db w) = [] -> items = []).
Proof.
  intros Hm Hp. eexists. split; [apply (get_courses_run lib logging rq w Hm Hp)|].
  split; [reflexivity|]. split; [apply length_map|].
  intros ->. reflexivity.
Qed.

Lemma get_courses_lists_every_course_witness :
  let rq := mkRequest GET ["api"; "courses"] None [] in
  fst (app Reference.library false rq Sample.world) =
    mkResponse 200 None
      (Some (JArr [JObj [("id", JNum 1); ("title", JStr "Intro");
                         ("description", JStr "desc");
                         ("estimatedTime", JNull);
                         ("materialsNeeded", JNull); ("userId", JNum 1);
                         ("owner",
                          JObj [("id", JNum 1); ("firstName", JStr "Ann");
                                ("lastName", JStr "Lee");
                                ("emailAddress", JStr "ann@x.com")])]])).
Proof.
  intros rq.
  destruct (get_courses_lists_every_course Reference.library false rq
              Sample.world eq_refl eq_refl) as (items & E & Hi & _).
  rewrite E, Hi. reflexivity.
Defined.

(** X8. GET /courses/:id needs no credentials: it answers 200 with the
    course and its owner under the property course when the id denotes a
    stored course, and 404 with the message Course not exist otherwise; the
    world is left as it was. *)
Theorem get_course_finds_or_404 lib logging rq id w :
  method rq = GET ->
  path rq = ["api"; "courses"; id] ->
  snd (app lib logging rq w) = w /\
  (forall c, row_with_pk lib (db w) (Some id) = Some c ->
     fst (app lib logging rq w) =
       mkResponse 200 None
         (Some (JObj [("course", course_json (c, owner_of (db w) c))]))) /\
  (row_with_pk lib (db w) (Some id) = None ->
     fst (app lib logging rq w) =
       mkResponse 404 None
         (Some (JObj [("message", JStr "Course not exist")]))).
Proof.
  intros Hm Hp. rewrite (get_course_run lib logging rq id w Hm Hp). simpl.
  split; [reflexivity|]. split.
  - intros c Hc. now rewrite Hc.
  - intros Hc. now rewrite Hc.
Qed.

Lemma get_course_finds_or_404_witness :
  let found := mkRequest GET ["api"; "courses"; "1"] None [] in
  let missing := mkRequest GET ["api"; "courses"; "abc"] None [] in
  status (fst (app Reference.library false found Sample.world)) = 200 /\
  fst (app Reference.library false missing Sample.world) =
    mkResponse 404 None (Some (JObj [("message", JStr "Course not exist")])).
Proof.
  intros found missing.
  pose proof (get_course_finds_or_404 Reference.library false found "1"
                Sample.world eq_refl eq_refl) as H1.
  pose proof (get_course_finds_or_404 Reference.library false missing "abc"
                Sample.world eq_refl eq_refl) as H2.
  exact (conj (f_equal status (proj1 (proj2 H1) Sample.intro eq_refl))
              (proj2 (proj2 H2) eq_refl)).
Defined.

(** X9. A GET request never changes the store, whatever its path and
    credentials. *)
Theorem reads_change_nothing lib logging rq w :
  method rq = GET -> db (snd (app lib logging rq w)) = db w.
Proof. apply get_keeps_db. Qed.

Lemma reads_change_nothing_witness :
  let rq := mkRequest GET ["api"; "users"] Sample.as_bob [] in
  db (snd (app Reference.library false rq Sample.world)) = db Sample.world.
Proof.
  intros rq.
  exact (reads_change_nothing Reference.library false rq Sample.world
           eq_refl).
Defined.

(** For a request with a parsed body: when its authentication is
    refused and it is not a POST to the users route, the store is left as it
    was. *)
Lemma refused_keeps_db lib logging rq w :
  Rejected lib (db w) rq ->
  ~ (method rq = POST /\ same_path ["api"; "users"] (path rq) = true) ->
  db (snd (app lib logging rq w)) = db w.
Proof.
  intros Hrej Hnot.
  assert (Hstack : forall h req,
            request req = rq ->
            db (snd (settle lib logging
                       (run_stack [authenticateUser lib; asyncHandler h]
                                  req w))) = db w).
  { intros h req Hreq. rewrite <- Hreq in Hrej.
    destruct (refused_stack lib h req w Hrej) as [line E].
    now rewrite E. }
  destruct (routing_total lib rq)
    as [Hm Hp | a b Hm Hp Ha Hb | a b Hm Hp Ha Hb | a b Hm Hp Ha Hb
        | a b id Hm Hp Ha Hb | a b Hm Hp Ha Hb | a b id Hm Hp Ha Hb
        | a b id Hm Hp Ha Hb | Hg Hr].
  - now apply get_keeps_db.
  - rewrite (at_get_users lib logging rq w a b Hm Hp Ha Hb).
    now apply Hstack.
  - exfalso. apply Hnot. split; [exact Hm|]. rewrite Hp. cbn [same_path].
    rewrite (same_text_lower "api" a), (same_text_lower "users" b);
      [reflexivity | now rewrite Hb | now rewrite Ha].
  - now apply get_keeps_db.
  - now apply get_keeps_db.
  - rewrite (at_post_courses lib logging rq w a b Hm Hp Ha Hb).
    now apply Hstack.
  - rewrite (at_put_course lib logging rq w a b id Hm Hp Ha Hb).
    now apply Hstack.
  - rewrite (at_delete_course lib logging rq w a b id Hm Hp Ha Hb).
    now apply Hstack.
  - rewrite (app_unrouted lib logging rq w Hg Hr).
    apply errorHandler_keeps_db.
Qed.

Lemma rejected_whatever_the_body lib s inc parsed :
  Rejected lib s (parsed_request inc []) ->
  Rejected lib s (parsed_request inc parsed).
Proof.
  intros [Hc | c Hc Hf | c u Hc Hf Hp];
    [apply header_absent | eapply user_not_found
    | eapply password_mismatch]; eauto.
Qed.

(** X10. Without valid credentials the only request that can change the
    store is POST /users, in whatever case its path is written: any other
    request to the server whose credentials [authenticateUser] would refuse
    leaves the store as it was, whether the body parser accepts its body or
    not. *)
Theorem refused_requests_change_nothing lib logging inc w :
  Rejected lib (db w) (parsed_request inc []) ->
  ~ (in_method inc = POST /\
     same_path ["api"; "users"] (in_path inc) = true) ->
  db (snd (server lib logging inc w)) = db w.
Proof.
  intros Hrej Hnot.
  destruct (server_cases lib logging inc w)
    as [(parsed & _ & E) | (fault & _ & E)]; rewrite E.
  - apply refused_keeps_db; [|exact Hnot].
    now apply (rejected_whatever_the_body lib (db w) inc parsed).
  - unfold errorHandler. now destruct logging.
Qed.

Lemma refused_requests_change_nothing_witness :
  let inc := mkIncoming DELETE ["API"; "Courses"; "1"] None NoJson in
  Rejected Reference.library (db Sample.world) (parsed_request inc []) /\
  fst (server Reference.library false inc Sample.world) = access_denied /\
  db (snd (server Reference.library false inc Sample.world)) =
    db Sample.world.
Proof.
  intros inc.
  assert (Hr : Rejected Reference.library (db Sample.world)
                 (parsed_request inc []))
    by (apply header_absent; reflexivity).
  assert (Hn : ~ (in_method inc = POST /\
                  same_path ["api"; "users"] (in_path inc) = true))
    by (intros [H _]; discriminate H).
  exact (conj Hr (conj eq_refl
           (refused_requests_change_nothing Reference.library false inc
              Sample.world Hr Hn))).
Defined.

(** The one request the hypothesis sets apart: without credentials, a
    POST to the users route in capitals does add a user. *)
Example sign_up_in_capitals :
  let rq := mkRequest POST ["API"; "USERS"] None
              [("firstName", JStr "Cat"); ("lastName", JStr "Fox");
               ("emailAddress", JStr "cat@x.com");
               ("password", JStr "pass3")] in
  fst (app Reference.library false rq Sample.world) =
    mkResponse 201 (Some "/") None /\
  List.length (users (db (snd (app Reference.library false rq
                                 Sample.world)))) = 3%nat.
Proof. split; reflexivity. Qed.

(** X11. The server answers with ten status codes only: 200, 201, 204,
    400, 401, 403, 404 and 500 from the application and 400, 413 and 415
    from the body parser. A Location header is sent exactly with 201, and a
    response has no body exactly when its status is 201 or 204. *)
Theorem statuses_headers_and_bodies lib logging inc w :
  let r := fst (server lib logging inc w) in
  In (status r) [200; 201; 204; 400; 401; 403; 404; 413; 415; 500] /\
  (location r <> None <-> status r = 201) /\
  (payload r = None <-> status r = 201 \/ status r = 204).
Proof.
  destruct (server_cases lib logging inc w)
    as [(parsed & _ & E) | (fault & _ & E)]; rewrite E.
  - destruct (app_answers lib logging
                (mkRequest (in_method inc) (in_path inc)
                           (in_authorization inc) parsed) w); simpl;
      (split; [auto 12|]); split; split;
      try discriminate; try congruence; auto;
      try (intros [X|X]; discriminate X).
  - rewrite parser_error_answer. destruct fault; simpl;
      (split; [auto 12|]); split; split;
      try discriminate; try congruence; auto;
      try (intros [X|X]; discriminate X).
Qed.

(** ** Writing courses *)

Section WritingCourses.

Variable lib : Library.
Variable logging : bool.

Lemma course_rules_messages b :
  run_rules lib course_rules b = course_messages b.
Proof.
  unfold run_rules, course_rules, course_messages, run_chain, when_fails;
    simpl.
  repeat rewrite app_nil_r. reflexivity.
Qed.

Lemma course_update_rules_messages b :
  run_rules lib course_update_rules b = course_update_messages b.
Proof.
  unfold run_rules, course_update_rules, course_update_messages, run_chain,
    when_fails; simpl.
  repeat rewrite app_nil_r. reflexivity.
Qed.

Lemma text_is_truthy t : t <> "" -> truthy (Some (JStr t)) = true.
Proof.
  intros H. simpl. destruct (String.eqb_spec t ""); [contradiction|reflexivity].
Qed.

Lemma course_update_rules_pass b t d :
  prop b "title" = Some (JStr t) -> t <> "" ->
  prop b "description" = Some (JStr d) -> d <> "" ->
  rule_fails lib course_update_rules b = false.
Proof.
  intros Ht Ht' Hd Hd'.
  rewrite rule_fails_run_rules, course_update_rules_messages.
  unfold course_update_messages.
  now rewrite Ht, Hd, !text_is_truthy.
Qed.

Lemma find_map_same_id (f : Course -> Course) k l :
  (forall c, course_id (f c) = course_id c) ->
  find (fun c => course_id c =? k) (map f l) =
  option_map f (find (fun c => course_id c =? k) l).
Proof.
  intros Hf. induction l as [|c l IH]; simpl; [reflexivity|].
  rewrite Hf. destruct (course_id c =? k); [reflexivity | exact IH].
Qed.

Lemma find_removed k l :
  find (fun c => course_id c =? k)
       (filter (fun c => negb (course_id c =? k)) l) = None.
Proof.
  induction l as [|c l IH]; simpl; [reflexivity|].
  destruct (course_id c =? k) eqn:E; simpl; [exact IH|].
  now rewrite E.
Qed.

Lemma find_not_removed k k' l :
  k' <> k ->
  find (fun c => course_id c =? k')
       (filter (fun c => negb (course_id c =? k)) l) =
  find (fun c => course_id c =? k') l.
Proof.
  intros Hne. induction l as [|c l IH]; simpl; [reflexivity|].
  destruct (course_id c =? k) eqn:E; simpl.
  - apply Z.eqb_eq in E.
    destruct (Z.eqb_spec (course_id c) k'); [congruence | exact IH].
  - destruct (course_id c =? k'); [reflexivity | exact IH].
Qed.

Lemma find_appended k (c : Course) l :
  (forall c0, In c0 l -> course_id c0 < k) ->
  course_id c = k ->
  find (fun c0 => course_id c0 =? k) (l ++ [c]) = Some c.
Proof.
  intros Hl Hc. induction l as [|c0 l IH]; simpl.
  - now rewrite Hc, Z.eqb_refl.
  - destruct (Z.eqb_spec (course_id c0) k) as [E|_].
    + specialize (Hl c0 (or_introl eq_refl)). lia.
    + apply IH. intros c1 H1. apply Hl. now right.
Qed.

End WritingCourses.

(** X12. PUT /courses/:id by the authenticated owner, with title,
    description, estimatedTime and materialsNeeded given as texts (the first
    two not empty), answers 204 without a body and rewrites these four
    fields of the course with that id; its id and userId, the other courses
    and the users are left as they were, and the course is afterwards found
    under the same id with the new fields. *)
Theorem owner_updates_course lib logging rq id k w u c t d et mn :
  method rq = PUT ->
  path rq = ["api"; "courses"; id] ->
  authenticates lib (db w) rq u ->
  pkOf lib id = Some k ->
  find (fun c0 => course_id c0 =? k) (courses (db w)) = Some c ->
  userId c = user_id u ->
  prop (body rq) "title" = Some (JStr t) -> t <> "" ->
  prop (body rq) "description" = Some (JStr d) -> d <> "" ->
  prop (body rq) "estimatedTime" = Some (JStr et) ->
  prop (body rq) "materialsNeeded" = Some (JStr mn) ->
  let w' := snd (app lib logging rq w) in
  fst (app lib logging rq w) = mkResponse 204 None None /\
  users (db w') = users (db w) /\
  courses (db w') =
    map (fun c0 => if course_id c0 =? k
                   then mkCourse (course_id c0) t d (Some et) (Some mn)
                                 (userId c0)
                   else c0)
        (courses (db w)) /\
  row_with_pk lib (db w') (Some id) =
    Some (mkCourse (course_id c) t d (Some et) (Some mn) (userId c)).
Proof.
  intros Hm Hp Ha Hk Hc Hown Ht Ht' Hd Hd' Het Hmn.
  assert (Hv := course_update_rules_pass lib (body rq) t d Ht Ht' Hd Hd').
  assert (E : app lib logging rq w =
    (mkResponse 204 None None,
     set_db (print ("Authentication successful for emailAdress: "
                    ++ emailAddress u)%string w)
       (mkStore (users (db w))
          (map (fun c0 => if course_id c0 =? k
                          then mkCourse (course_id c0) t d (Some et) (Some mn)
                                        (userId c0)
                          else c0)
               (courses (db w)))
          (userSeq (db w)) (courseSeq (db w))))).
  { rewrite (put_course_run lib logging rq id w u Hm Hp Hv Ha).
    simpl. unfold asyncHandler, put_course, bind, Course_findByPk. simpl.
    rewrite Hk, Hc. apply Z.eqb_eq in Hown. rewrite Hown.
    unfold Course_update. rewrite Ht, Hd, Het, Hmn. simpl. rewrite Hk.
    reflexivity. }
  intros w'. subst w'. rewrite E. simpl.
  repeat split. rewrite Hk.
  rewrite find_map_same_id.
  - rewrite Hc. simpl.
    apply Z.eqb_eq in Hown.
    assert (Hid : (course_id c =? k) = true).
    { apply find_some in Hc. tauto. }
    now rewrite Hid.
  - intros c0. now destruct (course_id c0 =? k).
Qed.

Lemma owner_updates_course_witness :
  let rq := mkRequest PUT ["api"; "courses"; "1"] Sample.as_ann
              [("title", JStr "Intro 2"); ("description", JStr "more");
               ("estimatedTime", JStr "2h");
               ("materialsNeeded", JStr "pen")] in
  authenticates Reference.library (db Sample.world) rq Sample.ann /\
  fst (app Reference.library false rq Sample.world) =
    mkResponse 204 None None /\
  courses (db (snd (app Reference.library false rq Sample.world))) =
    [mkCourse 1 "Intro 2" "more" (Some "2h") (Some "pen") 1].
Proof.
  intros rq.
  assert (Ha : authenticates Reference.library (db Sample.world) rq Sample.ann)
    by (exists (mkCredentials "ann@x.com" "secret1"); repeat split).
  assert (Ht : "Intro 2"%string <> ""%string) by discriminate.
  assert (Hd : "more"%string <> ""%string) by discriminate.
  pose proof (owner_updates_course Reference.library false rq "1" 1
                Sample.world Sample.ann Sample.intro
                "Intro 2" "more" "2h" "pen"
                eq_refl eq_refl Ha eq_refl eq_refl eq_refl
                eq_refl Ht eq_refl Hd eq_refl eq_refl) as H.
  exact (conj Ha (conj (proj1 H) (proj1 (proj2 (proj2 H))))).
Defined.

(** X13. DELETE /courses/:id by the authenticated owner answers 204
    without a body and removes the course with that id and nothing else: the
    users and the courses under other ids are left as they were, the id no
    longer denotes a course, and a later GET of the same path is answered
    404 with the message Course not exist. *)
Theorem owner_deletes_course lib logging rq id k w u c :
  method rq = DELETE ->
  path rq = ["api"; "courses"; id] ->
  authenticates lib (db w) rq u ->
  pkOf lib id = Some k ->
  find (fun c0 => course_id c0 =? k) (courses (db w)) = Some c ->
  userId c = user_id u ->
  let w' := snd (app lib logging rq w) in
  fst (app lib logging rq w) = mkResponse 204 None None /\
  users (db w') = users (db w) /\
  courses (db w') =
    filter (fun c0 => negb (course_id c0 =? k)) (courses (db w)) /\
  row_with_pk lib (db w') (Some id) = None /\
  (forall id' k', pkOf lib id' = Some k' -> k' <> k ->
     row_with_pk lib (db w') (Some id') = row_with_pk lib (db w) (Some id')) /\
  (forall rq', method rq' = GET -> path rq' = path rq ->
     fst (app lib logging rq' w') =
       mkResponse 404 None
         (Some (JObj [("message", JStr "Course not exist")]))).
Proof.
  intros Hm Hp Ha Hk Hc Hown.
  assert (E : app lib logging rq w =
    (mkResponse 204 None None,
     set_db (print ("Authentication successful for emailAdress: "
                    ++ emailAddress u)%string w)
       (mkStore (users (db w))
          (filter (fun c0 => negb (course_id c0 =? k)) (courses (db w)))
          (userSeq (db w)) (courseSeq (db w))))).
  { rewrite (delete_course_run lib logging rq id w u Hm Hp Ha).
    simpl. unfold asyncHandler, delete_course, bind, Course_findByPk. simpl.
    rewrite Hk, Hc. apply Z.eqb_eq in Hown. rewrite Hown.
    reflexivity. }
  intros w'. subst w'. rewrite E. simpl.
  assert (Hgone : row_with_pk lib
            (mkStore (users (db w))
               (filter (fun c0 => negb (course_id c0 =? k)) (courses (db w)))
               (userSeq (db w)) (courseSeq (db w))) (Some id) = None).
  { simpl. rewrite Hk. apply find_removed. }
  repeat split.
  - exact Hgone.
  - intros id' k' Hk' Hne. rewrite Hk'. now apply find_not_removed.
  - intros rq' Hm' Hp'. rewrite Hp in Hp'.
    rewrite (get_course_run lib logging rq' id _ Hm' Hp').
    unfold set_db. cbn [fst db]. now rewrite Hgone.
Qed.

Lemma owner_deletes_course_witness :
  let rq := mkRequest DELETE ["api"; "courses"; "1"] Sample.as_ann [] in
  authenticates Reference.library (db Sample.world) rq Sample.ann /\
  fst (app Reference.library false rq Sample.world) =
    mkResponse 204 None None /\
  courses (db (snd (app Reference.library false rq Sample.world))) = [].
Proof.
  intros rq.
  assert (Ha : authenticates Reference.library (db Sample.world) rq Sample.ann)
    by (exists (mkCredentials "ann@x.com" "secret1"); repeat split).
  pose proof (owner_deletes_course Reference.library false rq "1" 1
                Sample.world Sample.ann Sample.intro
                eq_refl eq_refl Ha eq_refl eq_refl eq_refl) as H.
  exact (conj Ha (conj (proj1 H) (proj1 (proj2 (proj2 H))))).
Defined.

(** ** Signing up and signing in *)

(** A third user signs up in the sample store. *)
Lemma post_users_stores_the_hash_witness :
  let rq := mkRequest POST ["api"; "users"] None
              [("firstName", JStr "Cat"); ("lastName", JStr "Fox");
               ("emailAddress", JStr "cat@x.com");
               ("password", JStr "pass3")] in
  fst (app Reference.library false rq Sample.world) =
    mkResponse 201 (Some "/") None /\
  users (db (snd (app Reference.library false rq Sample.world))) =
    [Sample.ann; Sample.bob;
     mkUser 3 "Cat" "Fox" "cat@x.com" "$2a$10$2:pass3"].
Proof.
  intros rq.
  exact (post_users_stores_the_hash Reference.library false rq Sample.world
           "Cat" "Fox" "cat@x.com" "pass3"
           eq_refl eq_refl eq_refl eq_refl eq_refl eq_refl eq_refl eq_refl).
Defined.

Section SigningIn.

Variable lib : Library.
Variable logging : bool.

Lemma get_users_accepts rq w u :
  method rq = GET ->
  path rq = ["api"; "users"] ->
  authenticates lib (db w) rq u ->
  fst (app lib logging rq w) = json (user_json u).
Proof.
  intros Hm Hp Ha.
  rewrite (app_mounted lib logging rq w _ Hp).
  rewrite (router_get_users lib rq w Hm). simpl.
  rewrite (authenticateUser_accepts lib (mkReq rq [] None []) w u Ha).
  reflexivity.
Qed.

Lemma find_new_address (l : list User) u e :
  existsb (fun u' => String.eqb (emailAddress u') e) l = false ->
  emailAddress u = e ->
  find (fun u' => String.eqb (emailAddress u') e) (l ++ [u]) = Some u.
Proof.
  intros Hfree He. induction l as [|x xs IH]; simpl in *.
  - now rewrite He, String.eqb_refl.
  - apply orb_false_iff in Hfree. destruct Hfree as [Hx Hxs].
    rewrite Hx. now apply IH.
Qed.

(** The store a successful POST /users leaves. *)
Lemma post_users_adds rq w f l e p :
  method rq = POST ->
  path rq = ["api"; "users"] ->
  rule_fails lib user_rules (body rq) = false ->
  prop (body rq) "firstName" = Some (JStr f) ->
  prop (body rq) "lastName" = Some (JStr l) ->
  prop (body rq) "emailAddress" = Some (JStr e) ->
  prop (body rq) "password" = Some (JStr p) ->
  existsb (fun u => String.eqb (emailAddress u) e) (users (db w)) = false ->
  db (snd (app lib logging rq w)) =
    mkStore (users (db w)
             ++ [mkUser (userSeq (db w)) f l e
                        (hashSync lib (genSaltSync lib (entropy w)) p)])
            (courses (db w)) (userSeq (db w) + 1) (courseSeq (db w)).
Proof.
  intros Hm Hp Hv Hf Hl He Hpw Hfree.
  rewrite (post_users_valid lib logging rq w Hm Hp Hv).
  destruct (user_rules_pass lib (body rq) Hv) as (_ & _ & _ & Hmail & _).
  rewrite Hf, Hl, He, Hpw. rewrite He in Hmail.
  unfold bcryptjs_hashSync, User_create, emailAttr. simpl.
  rewrite Hmail, Hfree. reflexivity.
Qed.

End SigningIn.

(** X15. Signing up, then signing in: after a successful POST /users, a
    GET /users that presents the new address is answered with the id and
    the three public fields of the new user when the library compares the
    presented secret equal to the stored hash, and with 401 Access Denied
    when it does not. *)
Theorem sign_up_then_sign_in lib logging rq w f l e p :
  method rq = POST ->
  path rq = ["api"; "users"] ->
  rule_fails lib user_rules (body rq) = false ->
  prop (body rq) "firstName" = Some (JStr f) ->
  prop (body rq) "lastName" = Some (JStr l) ->
  prop (body rq) "emailAddress" = Some (JStr e) ->
  prop (body rq) "password" = Some (JStr p) ->
  existsb (fun u => String.eqb (emailAddress u) e) (users (db w)) = false ->
  let w' := snd (app lib logging rq w) in
  let hash := hashSync lib (genSaltSync lib (entropy w)) p in
  forall rq' secret,
    method rq' = GET ->
    path rq' = ["api"; "users"] ->
    authorization rq' = Some (mkCredentials e secret) ->
    (compareSync lib secret hash = true ->
     fst (app lib logging rq' w') =
       mkResponse 200 None
         (Some (JObj [("id", JNum (userSeq (db w)));
                      ("firstName", JStr f); ("lastName", JStr l);
                      ("emailAddress", JStr e)]))) /\
    (compareSync lib secret hash = false ->
     fst (app lib logging rq' w') =
       mkResponse 401 None (Some (JObj [("message", JStr "Access Denied")]))).
Proof.
  intros Hm Hp Hv Hf Hl He Hpw Hfree w' hash rq' secret Hm' Hp' Hc.
  set (u := mkUser (userSeq (db w)) f l e hash).
  assert (Hdb : db w' = mkStore (users (db w) ++ [u]) (courses (db w))
                                (userSeq (db w) + 1) (courseSeq (db w)))
    by (apply (post_users_adds lib logging rq w f l e p); assumption).
  pose proof (new_user_authenticates lib (db w) u
                (mkCredentials e secret) Hfree eq_refl rq' Hc) as Hiff.
  simpl in Hiff. rewrite <- Hdb in Hiff.
  split.
  - intros Hcmp.
    now rewrite (get_users_accepts lib logging rq' w' u Hm' Hp'
                   (proj2 Hiff Hcmp)).
  - intros Hcmp.
    assert (Hrej : Rejected lib (db w') rq').
    { destruct (authenticates_or_rejected lib (db w') rq') as [[u' Ha]|Hr];
        [|exact Hr].
      exfalso.
      destruct Ha as (c & Hc' & Hfind & Hp2).
      rewrite Hc in Hc'. injection Hc' as <-.
      assert (Hu : authenticates lib (db w') rq' u').
      { exists (mkCredentials e secret). auto. }
      assert (u' = u).
      { rewrite Hdb in Hfind. cbn [users name] in Hfind.
        rewrite (find_new_address (users (db w)) u e Hfree eq_refl)
          in Hfind.
        congruence. }
      subst u'. unfold u in Hp2. simpl in Hp2.
      rewrite Hp2 in Hcmp. discriminate. }
    destruct (refused_on_route lib logging rq' w'
                (GET_users rq' Hm' Hp') Hrej) as [line E].
    now rewrite E.
Qed.

Lemma sign_up_then_sign_in_witness :
  let rq := mkRequest POST ["api"; "users"] None
              [("firstName", JStr "Cat"); ("lastName", JStr "Fox");
               ("emailAddress", JStr "cat@x.com");
               ("password", JStr "pass3")] in
  let w' := snd (app Reference.library false rq Sample.world) in
  fst (app Reference.library false
         (mkRequest GET ["api"; "users"]
            (Some (mkCredentials "cat@x.com" "pass3")) []) w') =
    mkResponse 200 None
      (Some (JObj [("id", JNum 3); ("firstName", JStr "Cat");
                   ("lastName", JStr "Fox");
                   ("emailAddress", JStr "cat@x.com")])) /\
  fst (app Reference.library false
         (mkRequest GET ["api"; "users"]
            (Some (mkCredentials "cat@x.com" "other")) []) w') =
    mkResponse 401 None (Some (JObj [("message", JStr "Access Denied")])).
Proof.
  intros rq w'.
  pose proof (sign_up_then_sign_in Reference.library false rq Sample.world
                "Cat" "Fox" "cat@x.com" "pass3"
                eq_refl eq_refl eq_refl eq_refl eq_refl eq_refl eq_refl
                eq_refl) as H.
  exact (conj
           (proj1 (H (mkRequest GET ["api"; "users"]
                        (Some (mkCredentials "cat@x.com" "pass3")) [])
                     "pass3" eq_refl eq_refl eq_refl) eq_refl)
           (proj2 (H (mkRequest GET ["api"; "users"]
                        (Some (mkCredentials "cat@x.com" "other")) [])
                     "other" eq_refl eq_refl eq_refl) eq_refl)).
Defined.

(** ** Checks before effects on the course routes *)

(** X16. On POST /courses and PUT /courses/:id an authenticated request
    whose body fails a rule is answered 400 with the messages of the failing
    checks, title before description, and the store is left as it was. On
    PUT this answer is given before the course is looked up: it does not
    depend on whether the id denotes a course or on who owns it. *)
Theorem course_body_is_checked_first lib logging rq w u :
  authenticates lib (db w) rq u ->
  (method rq = POST -> path rq = ["api"; "courses"] ->
   rule_fails lib course_rules (body rq) = true ->
   fst (app lib logging rq w) =
     mkResponse 400 None
       (Some (JObj [("errors",
                     JArr (map JStr (course_messages (body rq))))])) /\
   db (snd (app lib logging rq w)) = db w) /\
  (forall id,
     method rq = PUT -> path rq = ["api"; "courses"; id] ->
     rule_fails lib course_update_rules (body rq) = true ->
     fst (app lib logging rq w) =
       mkResponse 400 None
         (Some (JObj [("errors",
                       JArr (map JStr (course_update_messages (body rq))))]))
     /\ db (snd (app lib logging rq w)) = db w).
Proof.
  intros Ha. split.
  - intros Hm Hp Hv.
    rewrite (app_mounted lib logging rq w _ Hp).
    rewrite (router_post_courses lib rq w Hm).
    rewrite rule_fails_run_rules, course_rules_messages in Hv.
    rewrite course_rules_messages. cbn [run_stack].
    rewrite (authenticateUser_accepts lib
               (record_errors (mkReq rq [] None [])
                              (course_messages (body rq))) w u Ha).
    unfold asyncHandler, post_courses. simpl. rewrite Hv. simpl. auto.
  - intros id Hm Hp Hv.
    rewrite (app_mounted lib logging rq w _ Hp).
    rewrite (router_put_course lib id rq w Hm).
    rewrite rule_fails_run_rules, course_update_rules_messages in Hv.
    rewrite course_update_rules_messages.
    rewrite (guarded_stack lib _ rq id _ w u Ha).
    simpl. unfold asyncHandler, put_course. simpl. rewrite Hv. simpl. auto.
Qed.

Lemma course_body_is_checked_first_witness :
  let rq := mkRequest PUT ["api"; "courses"; "7"] Sample.as_bob
              [("title", JStr "")] in
  authenticates Reference.library (db Sample.world) rq Sample.bob /\
  row_with_pk Reference.library (db Sample.world) (Some "7") = None /\
  fst (app Reference.library false rq Sample.world) =
    mkResponse 400 None
      (Some (JObj [("errors",
         JArr [JStr ("Please provide " ++ quoted "title")%string;
               JStr ("Pleas provide " ++ quoted "description")%string])])).
Proof.
  intros rq.
  assert (Ha : authenticates Reference.library (db Sample.world) rq Sample.bob)
    by (exists (mkCredentials "bob@x.com" "hunter2"); repeat split).
  exact (conj Ha (conj eq_refl
           (proj1 (proj2 (course_body_is_checked_first Reference.library
                            false rq Sample.world Sample.bob Ha)
                         "7" eq_refl eq_refl eq_refl)))).
Defined.

(** ** The Location of a new course *)

(** X17. After a successful POST /courses, when the ids of the stored
    courses are below the counter and the library reads the decimal text of
    the new id back as that id, a GET of /api/courses/ followed by the new
    id is answered 200 with the new course and its owner. The Location
    header of the 201 answer is /courses/ followed by the new id, without
    the /api prefix of the mount point: a GET of exactly the two segments
    it names is answered 404 Route Not Found. *)
Theorem new_course_is_served_under_api lib logging rq w u t d et mn o :
  method rq = POST ->
  path rq = ["api"; "courses"] ->
  authenticates lib (db w) rq u ->
  rule_fails lib course_rules (body rq) = false ->
  textAttr lib (prop (body rq) "title") = Some t ->
  textAttr lib (prop (body rq) "description") = Some d ->
  optTextAttr lib (prop (body rq) "estimatedTime") = Some et ->
  optTextAttr lib (prop (body rq) "materialsNeeded") = Some mn ->
  intAttr lib (prop (body rq) "userId") = Some o ->
  existsb (fun u' => user_id u' =? o) (users (db w)) = true ->
  (forall c, In c (courses (db w)) -> course_id c < courseSeq (db w)) ->
  pkOf lib (string_of_Z (courseSeq (db w))) = Some (courseSeq (db w)) ->
  let w' := snd (app lib logging rq w) in
  let n := string_of_Z (courseSeq (db w)) in
  let c := mkCourse (courseSeq (db w)) t d et mn o in
  location (fst (app lib logging rq w)) = Some ("/courses/" ++ n)%string /\
  (forall rq', method rq' = GET -> path rq' = ["api"; "courses"; n] ->
     fst (app lib logging rq' w') =
       mkResponse 200 None
         (Some (JObj [("course", course_json (c, owner_of (db w) c))]))) /\
  (forall rq', method rq' = GET -> path rq' = ["courses"; n] ->
     fst (app lib logging rq' w') = route_not_found).
Proof.
  intros Hm Hp Ha Hv Ht Hd Het Hmn Ho Hex Hfresh Hpk w' n c.
  assert (E : app lib logging rq w =
    (location_status_end ("/courses/" ++ n)%string 201,
     set_db (print ("Authentication successful for emailAdress: "
                    ++ emailAddress u)%string w)
       (mkStore (users (db w)) (courses (db w) ++ [c])
                (userSeq (db w)) (courseSeq (db w) + 1)))).
  { rewrite (post_courses_valid lib logging rq w u Hm Hp Ha Hv).
    unfold Course_create. simpl db.
    rewrite Ht, Hd, Het, Hmn, Ho, Hex. reflexivity. }
  subst w'. rewrite E. cbn [fst snd location location_status_end].
  split; [reflexivity|]. split.
  - intros rq' Hm' Hp'.
    rewrite (get_course_run lib logging rq' n _ Hm' Hp').
    unfold set_db. cbn [fst db]. unfold row_with_pk. cbn [courses].
    unfold n at 1. rewrite Hpk.
    rewrite (find_appended (courseSeq (db w)) c (courses (db w)) Hfresh
               eq_refl).
    reflexivity.
  - intros rq' Hm' Hp'.
    assert (Hr : routed lib rq' = false)
      by (unfold routed; rewrite Hp'; reflexivity).
    assert (Hg : method rq' = GET -> path rq' <> [])
      by (intros _; rewrite Hp'; discriminate).
    rewrite (app_unrouted lib logging rq' _ Hg Hr).
    unfold errorHandler. now destruct logging.
Qed.

Lemma new_course_is_served_under_api_witness :
  let rq := mkRequest POST ["api"; "courses"] Sample.as_bob
              (Sample.course_body ++ [("userId", JNum 2)]) in
  let w' := snd (app Reference.library false rq Sample.world) in
  authenticates Reference.library (db Sample.world) rq Sample.bob /\
  location (fst (app Reference.library false rq Sample.world)) =
    Some "/courses/2" /\
  status (fst (app Reference.library false
                 (mkRequest GET ["api"; "courses"; "2"] None []) w')) = 200 /\
  fst (app Reference.library false
         (mkRequest GET ["courses"; "2"] None []) w') = route_not_found.
Proof.
  intros rq w'.
  assert (Ha : authenticates Reference.library (db Sample.world) rq Sample.bob)
    by (exists (mkCredentials "bob@x.com" "hunter2"); repeat split).
  assert (Hfresh : forall c, In c (courses (db Sample.world)) ->
                             course_id c < courseSeq (db Sample.world))
    by (intros c [<-|[]]; simpl; lia).
  pose proof (new_course_is_served_under_api Reference.library false rq
                Sample.world Sample.bob "Intro" "desc" None None 2
                eq_refl eq_refl Ha eq_refl eq_refl eq_refl eq_refl eq_refl
                eq_refl eq_refl Hfresh eq_refl) as H.
  exact (conj Ha
           (conj (proj1 H)
              (conj (f_equal status
                       (proj1 (proj2 H)
                          (mkRequest GET ["api"; "courses"; "2"] None [])
                          eq_refl eq_refl))
                    (proj2 (proj2 H)
                       (mkRequest GET ["courses"; "2"] None [])
                       eq_refl eq_refl)))).
Defined.

(** ** Who can change a course *)

(** X18. Only its owner changes or removes a course: when a PUT or a
    DELETE on /courses/:id leaves the store different from what it was, the
    caller authenticated as a stored user, the id denotes a stored course,
    and the userId of that course is the id of the caller. *)
Theorem only_the_owner_changes_a_course lib logging rq id w :
  method rq = PUT \/ method rq = DELETE ->
  path rq = ["api"; "courses"; id] ->
  db (snd (app lib logging rq w)) <> db w ->
  exists u c,
    authenticates lib (db w) rq u /\
    row_with_pk lib (db w) (Some id) = Some c /\
    userId c = user_id u.
Proof.
  intros Hm Hp Hchanged.
  destruct (authenticates_or_rejected lib (db w) rq) as [[u Ha] | Hrej].
  2:{ exfalso. apply Hchanged.
      assert (Hroute : AuthenticatedRoute rq).
      { destruct Hm as [Hm|Hm];
          [now apply PUT_course with (id := id)
          | now apply DELETE_course with (id := id)]. }
      destruct (refused_on_route lib logging rq w Hroute Hrej) as [line E].
      now rewrite E. }
  destruct (row_with_pk lib (db w) (Some id)) as [c|] eqn:Hc.
  - destruct (Z.eqb_spec (userId c) (user_id u)) as [Hown|Hne].
    + exists u, c. auto.
    + exfalso. apply Hchanged. apply Z.eqb_neq in Hne.
      unfold row_with_pk in Hc.
      destruct Hm as [Hm|Hm].
      * destruct (rule_fails lib course_update_rules (body rq)) eqn:Hv.
        -- rewrite (app_mounted lib logging rq w _ Hp).
           rewrite (router_put_course lib id rq w Hm).
           rewrite course_update_rules_messages.
           rewrite (guarded_stack lib _ rq id _ w u Ha).
           rewrite rule_fails_run_rules, course_update_rules_messages in Hv.
           simpl. unfold asyncHandler, put_course. simpl. rewrite Hv.
           reflexivity.
        -- rewrite (put_course_run lib logging rq id w u Hm Hp Hv Ha).
           simpl. unfold asyncHandler, put_course, bind, Course_findByPk.
           simpl. rewrite Hc, Hne. reflexivity.
      * rewrite (delete_course_run lib logging rq id w u Hm Hp Ha).
        simpl. unfold asyncHandler, delete_course, bind, Course_findByPk.
        simpl. rewrite Hc, Hne. reflexivity.
  - exfalso. apply Hchanged. unfold row_with_pk in Hc.
    destruct Hm as [Hm|Hm].
    + destruct (rule_fails lib course_update_rules (body rq)) eqn:Hv.
      * rewrite (app_mounted lib logging rq w _ Hp).
        rewrite (router_put_course lib id rq w Hm).
        rewrite course_update_rules_messages.
        rewrite (guarded_stack lib _ rq id _ w u Ha).
        rewrite rule_fails_run_rules, course_update_rules_messages in Hv.
        simpl. unfold asyncHandler, put_course. simpl. rewrite Hv.
        reflexivity.
      * rewrite (put_course_run lib logging rq id w u Hm Hp Hv Ha).
        simpl. unfold asyncHandler, put_course, bind, Course_findByPk.
        simpl. rewrite Hc. simpl.
        unfold errorHandler. destruct logging; reflexivity.
    + rewrite (delete_course_run lib logging rq id w u Hm Hp Ha).
      simpl. unfold asyncHandler, delete_course, bind, Course_findByPk.
      simpl. rewrite Hc. simpl.
        unfold errorHandler. destruct logging; reflexivity.
Qed.

Lemma only_the_owner_changes_a_course_witness :
  let rq := mkRequest DELETE ["api"; "courses"; "1"] Sample.as_ann [] in
  db (snd (app Reference.library false rq Sample.world)) <> db Sample.world /\
  exists u c,
    authenticates Reference.library (db Sample.world) rq u /\
    row_with_pk Reference.library (db Sample.world) (Some "1") = Some c /\
    userId c = user_id u.
Proof.
  intros rq.
  assert (Hch : db (snd (app Reference.library false rq Sample.world))
                <> db Sample.world)
    by (intros H; discriminate H).
  exact (conj Hch
           (only_the_owner_changes_a_course Reference.library false rq "1"
              Sample.world (or_intror eq_refl) eq_refl Hch)).
Defined.

(** ** What is written to the console *)

Section Console.

Variable lib : Library.
Variable logging : bool.

Lemma authenticateUser_logs req w :
  exists line,
    AuthLine lib (db w) (request req) line /\
    snd (authenticateUser lib req w) = print line w.
Proof.
  unfold authenticateUser, User_findAll.
  destruct (authorization (request req)) as [c|] eqn:Hc.
  - destruct (find _ (users (db w))) as [u|] eqn:Hf.
    + destruct (compareSync lib (pass c) (password u)) eqn:Hp.
      * eexists. split; [eapply line_success; eauto | reflexivity].
      * eexists. split; [eapply line_failure; eauto | reflexivity].
    + eexists. split; [eapply line_no_user; eauto | reflexivity].
  - eexists. split; [now apply line_no_header | reflexivity].
Qed.

Lemma silent_ret {A} (a : A) : silent (ret a).
Proof. intros w. reflexivity. Qed.

Lemma silent_throw {A} e : silent (@throw A e).
Proof. intros w. reflexivity. Qed.

Lemma silent_bind {A B} (c : M A) (k : A -> M B) :
  silent c -> (forall a, silent (k a)) -> silent (bind c k).
Proof.
  intros Hc Hk w. unfold bind. specialize (Hc w).
  destruct (c w) as [[a|e] w']; simpl in *; [|exact Hc].
  now rewrite Hk.
Qed.

Lemma User_create_silent fn ln em pw : silent (User_create lib fn ln em pw).
Proof.
  intros w. unfold User_create.
  destruct (textAttr lib fn), (textAttr lib ln), (emailAttr lib em);
    try reflexivity.
  destruct (existsb _ _); reflexivity.
Qed.

Lemma Course_create_silent t d et mn uid :
  silent (Course_create lib t d et mn uid).
Proof.
  intros w. unfold Course_create.
  destruct (textAttr lib t), (textAttr lib d), (optTextAttr lib et),
    (optTextAttr lib mn), (intAttr lib uid); try reflexivity.
  destruct (existsb _ _); reflexivity.
Qed.

Lemma Course_update_silent t d et mn id :
  silent (Course_update lib t d et mn id).
Proof.
  intros w. unfold Course_update.
  destruct (is_refused _ _ ++ _); reflexivity.
Qed.

Lemma hashSync_silent s : silent (bcryptjs_hashSync lib s).
Proof.
  intros w. unfold bcryptjs_hashSync.
  destruct s as [[| | | | |]|]; reflexivity.
Qed.

Lemma handlers_silent h :
  In h [get_users; post_users lib; get_courses; get_course lib;
        post_courses lib; put_course lib; delete_course lib] ->
  forall req, silent (h req).
Proof.
  simpl. intros [<-|[<-|[<-|[<-|[<-|[<-|[<-|[]]]]]]]] req.
  - unfold get_users. destruct (currentUser req);
      [apply silent_ret | apply silent_throw].
  - unfold post_users. destruct (negb _); [apply silent_ret|].
    apply silent_bind; [apply hashSync_silent|]. intros pw.
    apply silent_bind; [apply User_create_silent|]. intros _.
    apply silent_ret.
  - intros w. reflexivity.
  - intros w. unfold get_course, bind, Course_findByPk_owner, bind. simpl.
    destruct (row_with_pk lib (db w) (param req "id")); reflexivity.
  - unfold post_courses. destruct (negb _); [apply silent_ret|].
    apply silent_bind; [apply Course_create_silent|]. intros c.
    apply silent_ret.
  - unfold put_course. destruct (negb _); [apply silent_ret|].
    apply silent_bind; [intros w; reflexivity|].
    intros [c|]; [|apply silent_throw].
    destruct (currentUser req) as [u|]; [|apply silent_throw].
    destruct (userId c =? user_id u); [|apply silent_ret].
    apply silent_bind; [apply Course_update_silent|]. intros _.
    apply silent_ret.
  - unfold delete_course.
    apply silent_bind; [intros w; reflexivity|].
    intros [c|]; [|apply silent_throw].
    destruct (currentUser req) as [u|]; [|apply silent_throw].
    destruct (userId c =? user_id u); [|apply silent_ret].
    apply silent_bind; [intros w; reflexivity|]. intros _.
    apply silent_ret.
Qed.

Lemma errorHandler_logs e w :
  exists err,
    console (snd (errorHandler lib logging e w)) = console w ++ err /\
    error_lines lib logging err.
Proof.
  unfold errorHandler, error_lines. destruct logging; simpl.
  - eexists. split; [reflexivity|]. right. split; [reflexivity|].
    now exists e.
  - exists []. split; [now rewrite app_nil_r | now left].
Qed.

Lemma handler_stack_logs h req w :
  silent (h req) ->
  exists err,
    console (snd (settle lib logging
                    (run_stack [asyncHandler h] req w))) = console w ++ err /\
    error_lines lib logging err.
Proof.
  intros Hs. specialize (Hs w). cbn [run_stack]. unfold asyncHandler.
  destruct (h req w) as [[res|e] w1]; cbn [snd] in Hs; cbn [settle snd].
  - exists []. split; [now rewrite app_nil_r | now left].
  - destruct (errorHandler_logs e w1) as (err & E & He).
    exists err. split; [now rewrite E, Hs | exact He].
Qed.

Lemma guarded_stack_logs h req w :
  (forall req0, silent (h req0)) ->
  exists line err,
    AuthLine lib (db w) (request req) line /\
    console (snd (settle lib logging
                    (run_stack [authenticateUser lib; asyncHandler h] req w)))
      = console w ++ [line] ++ err /\
    error_lines lib logging err.
Proof.
  intros Hs.
  destruct (authenticateUser_logs req w) as (line & Hl & E).
  exists line.
  change (run_stack [authenticateUser lib; asyncHandler h] req w)
    with (match authenticateUser lib req w with
          | (Next req', w') => run_stack [asyncHandler h] req' w'
          | (Send res, w') => (Sent res, w')
          | (NextErr err, w') => (Failed err, w')
          end).
  destruct (authenticateUser lib req w) as [[req1|res|e] w1];
    cbn [snd] in E; subst w1.
  - destruct (handler_stack_logs h req1 (print line w) (Hs req1))
      as (err & Ec & He).
    exists err. split; [exact Hl|]. split; [|exact He].
    rewrite Ec. cbn [print console]. now rewrite <- app_assoc.
  - exists []. split; [exact Hl|]. split; [reflexivity | now left].
  - destruct (errorHandler_logs e (print line w)) as (err & Ec & He).
    exists err. split; [exact Hl|]. split; [|exact He].
    cbn [settle]. rewrite Ec. cbn [print console].
    now rewrite <- app_assoc.
Qed.

End Console.

(** X19. What a request writes to the console: at most one line of
    [authenticateUser], which is one of its four messages and is built from
    the name presented or the address stored, never from the secret or a
    stored password; then at most one line of the global error handler, and
    only when global error logging is enabled. Nothing else is written. *)
Theorem console_gets_auth_and_error_lines lib logging rq w :
  exists auth err,
    console (snd (app lib logging rq w)) = console w ++ auth ++ err /\
    (auth = [] \/ exists line, auth = [line] /\ AuthLine lib (db w) rq line) /\
    error_lines lib logging err.
Proof.
  assert (Hguard : forall h req,
            In h [get_users; post_users lib; get_courses; get_course lib;
                  post_courses lib; put_course lib; delete_course lib] ->
            request req = rq ->
            exists auth err,
              console (snd (settle lib logging
                 (run_stack [authenticateUser lib; asyncHandler h] req w)))
                = console w ++ auth ++ err /\
              (auth = [] \/
               exists line, auth = [line] /\ AuthLine lib (db w) rq line) /\
              error_lines lib logging err).
  { intros h req Hin Hreq.
    destruct (guarded_stack_logs lib logging h req w
                (handlers_silent lib h Hin)) as (line & err & Hl & E & He).
    rewrite Hreq in Hl.
    exists [line], err. split; [exact E|]. split; [|exact He].
    right. now exists line. }
  assert (Hplain : forall h req,
            In h [get_users; post_users lib; get_courses; get_course lib;
                  post_courses lib; put_course lib; delete_course lib] ->
            exists auth err,
              console (snd (settle lib logging
                 (run_stack [asyncHandler h] req w)))
                = console w ++ auth ++ err /\
              (auth = [] \/
               exists line, auth = [line] /\ AuthLine lib (db w) rq line) /\
              error_lines lib logging err).
  { intros h req Hin.
    destruct (handler_stack_logs lib logging h req w
                (handlers_silent lib h Hin req)) as (err & E & He).
    exists [], err. split; [exact E|]. split; [now left | exact He]. }
  destruct (routing_total lib rq)
    as [Hm Hp | a b Hm Hp Ha Hb | a b Hm Hp Ha Hb | a b Hm Hp Ha Hb
        | a b id Hm Hp Ha Hb | a b Hm Hp Ha Hb | a b id Hm Hp Ha Hb
        | a b id Hm Hp Ha Hb | Hg Hr].
  - exists [], []. unfold app. rewrite Hm, Hp. simpl.
    split; [now rewrite app_nil_r|]. split; now left.
  - rewrite (at_get_users lib logging rq w a b Hm Hp Ha Hb).
    apply Hguard; [simpl; tauto | reflexivity].
  - rewrite (at_post_users lib logging rq w a b Hm Hp Ha Hb).
    apply Hplain. simpl; tauto.
  - rewrite (at_get_courses lib logging rq w a b Hm Hp Ha Hb).
    apply Hplain. simpl; tauto.
  - rewrite (at_get_course lib logging rq w a b id Hm Hp Ha Hb).
    apply Hplain. simpl; tauto.
  - rewrite (at_post_courses lib logging rq w a b Hm Hp Ha Hb).
    apply Hguard; [simpl; tauto | reflexivity].
  - rewrite (at_put_course lib logging rq w a b id Hm Hp Ha Hb).
    apply Hguard; [simpl; tauto | reflexivity].
  - rewrite (at_delete_course lib logging rq w a b id Hm Hp Ha Hb).
    apply Hguard; [simpl; tauto | reflexivity].
  - rewrite (app_unrouted lib logging rq w Hg Hr).
    destruct (errorHandler_logs lib logging routeNotFound w)
      as (err & E & He).
    exists [], err. split; [exact E|]. split; [now left | exact He].
Qed.
